(** * A verification model of the customer REST service (server.js)

    The service is an Express application over a MariaDB pool.  This
    development embeds, handler by handler, the request validation chain,
    the [titleCase] normalisation helper and the persistence path of
    [server.js] (the repository's second copy of the server has the same
    handlers, with the helper laid out on four lines), the /say route and
    the echo function it is meant to call, and proves the properties stated
    for them.

    Strings.  A JavaScript string is a sequence of UTF-16 code units.  The
    model uses Rocq's [string], whose characters are the 256 values of
    [ascii], read as the code units U+0000..U+00FF (Basic Latin and the
    Latin-1 supplement).  Case mapping, white space and the regular
    expression classes below are the ECMAScript ones restricted to that
    range. *)

From Stdlib Require Import Ascii String NArith Bool List Lia.
From stdpp Require Import gmap strings list fin_maps.

Open Scope string_scope.
Open Scope list_scope.

(** ** Code units and character classes *)

Definition code (c : ascii) : N := N_of_ascii c.

Definition in_range (lo hi : N) (c : ascii) : bool :=
  ((lo <=? code c) && (code c <=? hi))%N.

(** ECMAScript WhiteSpace and LineTerminator below U+0100: TAB, LF, VT, FF,
    CR, SPACE and NO-BREAK SPACE.  This is the set removed by
    [String.prototype.trim] and matched by the regular expression [\s]. *)
Definition isWhiteSpace (c : ascii) : bool :=
  in_range 9 13 c || (code c =? 32)%N || (code c =? 160)%N.

(** The class [[a-z]]. *)
Definition is_a_z (c : ascii) : bool := in_range 97 122 c.

(** The class [\w] of a regular expression without the [u] flag:
    [[A-Za-z0-9_]]. *)
Definition is_word_char (c : ascii) : bool :=
  in_range 48 57 c || in_range 65 90 c || (code c =? 95)%N || in_range 97 122 c.

(** Lower-case mapping of one code unit: A-Z, and in Latin-1 U+00C0..U+00DE
    without the multiplication sign U+00D7. *)
Definition toLowerCase_char (c : ascii) : ascii :=
  if in_range 65 90 c || in_range 192 214 c || in_range 216 222 c
  then ascii_of_N (code c + 32) else c.

(** Upper-case mapping of one code unit: a-z, and in Latin-1 U+00E0..U+00FE
    without the division sign U+00F7.  (U+00B5, U+00DF and U+00FF have
    upper-case forms outside the range and are left in place; the program
    only ever upper-cases a match of [[a-z]].) *)
Definition toUpperCase_char (c : ascii) : ascii :=
  if in_range 97 122 c || in_range 224 246 c || in_range 248 254 c
  then ascii_of_N (code c - 32) else c.

(** ** String operations used by the program *)

Fixpoint string_map (f : ascii -> ascii) (s : string) : string :=
  match s with
  | EmptyString => EmptyString
  | String c r => String (f c) (string_map f r)
  end.

(** [String.prototype.toLowerCase]. *)
Definition toLowerCase (s : string) : string := string_map toLowerCase_char s.

(** [String.prototype.trim] = [trimEnd] after [trimStart]. *)
Fixpoint trimStart (s : string) : string :=
  match s with
  | EmptyString => EmptyString
  | String c r => if isWhiteSpace c then trimStart r else s
  end.

Fixpoint trimEnd (s : string) : string :=
  match s with
  | EmptyString => EmptyString
  | String c r =>
      match trimEnd r with
      | EmptyString => if isWhiteSpace c then EmptyString else String c EmptyString
      | r' => String c r'
      end
  end.

Definition trim (s : string) : string := trimEnd (trimStart s).

(** The assertion [\b] between two neighbouring positions: exactly one side
    is a word character; the outside of the string counts as a non-word. *)
Definition is_word (o : option ascii) : bool :=
  match o with Some c => is_word_char c | None => false end.

Definition word_boundary (prev next : option ascii) : bool :=
  xorb (is_word prev) (is_word next).

(** Does [/\b[a-z]/] match the single character [c] whose left neighbour is
    [prev]? *)
Definition matches_b_a_z (prev : option ascii) (c : ascii) : bool :=
  word_boundary prev (Some c) && is_a_z c.

(** [s.replace(/\b[a-z]/g, c => c.toUpperCase())].  The pattern consumes one
    character, so the global replacement visits every position once, and
    the look-behind of [\b] reads the subject string, not the output: [prev]
    is the unreplaced left neighbour. *)
Fixpoint replace_b_a_z (prev : option ascii) (s : string) : string :=
  match s with
  | EmptyString => EmptyString
  | String c r =>
      String (if matches_b_a_z prev c then toUpperCase_char c else c)
             (replace_b_a_z (Some c) r)
  end.

(** [const titleCase = (s='') =>
      s.toString().trim().toLowerCase().replace(/\b[a-z]/g, c => c.toUpperCase())]
    on a string argument ([toString] is the identity there). *)
Definition titleCase (s : string) : string :=
  replace_b_a_z None (toLowerCase (trim s)).

(** The default parameter: [titleCase(undefined)] is [titleCase('')]. *)
Definition titleCase_arg (o : option string) : string :=
  titleCase (match o with Some s => s | None => "" end).

(** ** validator.js: the sanitizers and validators the chains use *)

(** [str.replace(/c/g, by)] for a one-character pattern. *)
Fixpoint replace_char (c : ascii) (by_ : string) (s : string) : string :=
  match s with
  | EmptyString => EmptyString
  | String x r =>
      if Ascii.eqb x c then by_ +:+ replace_char c by_ r
      else String x (replace_char c by_ r)
  end.

(** [validator.escape]: eight global replacements, the ampersand first. *)
Definition escape (str : string) : string :=
  replace_char "`" "&#96;"
    (replace_char "\" "&#x5C;"
      (replace_char "/" "&#x2F;"
        (replace_char ">" "&gt;"
          (replace_char "<" "&lt;"
            (replace_char "'" "&#x27;"
              (replace_char "034" "&quot;"
                (replace_char "&" "&amp;" str))))))).

(** ** express-validator chains

    A field of the parsed JSON body is [None] when the key is missing
    ([undefined]) and [Some s] when it holds the string [s]; the documented
    schema of every route types the three customer fields as strings. *)

Inductive ChainItem :=
| Trim                      (* .trim() *)
| Escape                    (* .escape() *)
| IsLengthMin (n : nat) (msg : string)   (* .isLength({ min: n }).withMessage(msg) *)
| NotEmpty.                 (* .notEmpty() *)

Record Chain := {
  field : string;
  optional : bool;          (* .optional(): skip the chain on undefined *)
  items : list ChainItem
}.

Record FieldError := { msg : string; param : string; value : string }.

(** express-validator's [toString]: [undefined] becomes the empty string. *)
Definition toString (v : option string) : string :=
  match v with Some s => s | None => "" end.

(** One chain item on the current value: a sanitizer rewrites it, a
    validator leaves it and may report an error. *)
Definition run_item (fld : string) (it : ChainItem) (v : string)
  : string * list FieldError :=
  match it with
  | Trim => (trim v, [])
  | Escape => (escape v, [])
  | IsLengthMin n m =>
      (v, if (n <=? String.length v)%nat then []
          else [{| msg := m; param := fld; value := v |}])
  | NotEmpty =>
      (v, if (String.length v =? 0)%nat
          then [{| msg := "Invalid value"; param := fld; value := v |}]
          else [])
  end.

Fixpoint run_items (fld : string) (its : list ChainItem) (v : string)
  : string * list FieldError :=
  match its with
  | [] => (v, [])
  | it :: rest =>
      let '(v1, e1) := run_item fld it v in
      let '(v2, e2) := run_items fld rest v1 in
      (v2, e1 ++ e2)
  end.

(** Running a chain yields the value written back to the request and the
    errors added to the validation result. *)
Definition run_chain (ch : Chain) (v : option string)
  : option string * list FieldError :=
  match v, optional ch with
  | None, true => (None, [])
  | _, _ =>
      let '(v', errs) := run_items (field ch) (items ch) (toString v) in
      (Some v', errs)
  end.

(** ** Requests and responses *)

Record Body := {
  cust_code : option string;
  cust_name : option string;
  cust_city : option string
}.

(** [req.params.id] and [req.body]. *)
Record Request := { id : string; body : Body }.

(** A value bound to a [?] placeholder or stored in a column: a string, or
    [None] for JavaScript [null] / SQL [NULL]. *)
Definition SqlValue := option string.

(** The [payload] object of the create handler. *)
Record Payload := {
  payload_code : string;
  payload_name : string;
  payload_city : SqlValue
}.

(** A stored customer, keyed by its [cust_code] in the table. *)
Record Customer := { row_name : SqlValue; row_city : SqlValue }.

Inductive Row :=
| RowOk (ok : nat)                              (* { ok: 1 } *)
| RowCustomer (code_ : string) (c : Customer)
| RowOther (data : string).                     (* a row of orders or foods *)

Inductive QueryResult :=
| ResultRows (rows : list Row)
| OkPacket (affectedRows : nat).

Inductive Json :=
| JResult (r : QueryResult)                     (* res.json(rows) *)
| JHealth (status : string) (db : bool)         (* { status, db } *)
| JErrors (errors : list FieldError)            (* { errors: [...] } *)
| JError (error : string)                       (* { error } *)
| JMessage (message : string)                   (* { message } *)
| JCreated (message : string) (customer : Payload).

Record Response := { status : nat; json : Json }.


(** ** The store

    MariaDB is outside the program; it is modelled as far as the statements
    of [server.js] need: [customer] is a table keyed by [cust_code], read
    with exact key comparison; [orders] and [foods] are opaque row lists. *)

Record Database := {
  customer : gmap string Customer;
  orders : list string;
  foods : list string
}.

Inductive Result (A : Type) :=
| Ok (a : A)
| Throw (e : string).
Arguments Ok {A} a.
Arguments Throw {A} e.

Definition set_customer (t : gmap string Customer) (db : Database) : Database :=
  {| customer := t; orders := orders db; foods := foods db |}.

(** [UPDATE customer SET ... WHERE cust_code=?]: the matched row, if any, is
    rewritten by [f]; [affectedRows] counts the matched rows (the connector's
    default [foundRows] setting). *)
Definition update_where (k : SqlValue) (f : Customer -> Customer) (db : Database)
  : QueryResult * Database :=
  match k with
  | Some code_ =>
      match customer db !! code_ with
      | Some c => (OkPacket 1, set_customer (<[code_ := f c]> (customer db)) db)
      | None => (OkPacket 0, db)
      end
  | None => (OkPacket 0, db)
  end.

Definition limit50 {A} (l : list A) : list A := take 50 l.

(** The statements the program issues, recognised by their text; any other
    text, or a wrong number of parameters, is rejected by the server. *)
Definition run_sql (sql : string) (params : list SqlValue) (db : Database)
  : Result (QueryResult * Database) :=
  if (sql =? "SELECT 1 AS ok")%string then
    match params with
    | [] => Ok (ResultRows [RowOk 1], db)
    | _ => Throw "Parameter count mismatch"
    end
  else if (sql =? "SELECT * FROM customer LIMIT 50")%string then
    match params with
    | [] => Ok (ResultRows
                  (limit50 (map (fun kc => RowCustomer kc.1 kc.2)
                                (map_to_list (customer db)))), db)
    | _ => Throw "Parameter count mismatch"
    end
  else if (sql =? "SELECT * FROM orders LIMIT 50")%string then
    match params with
    | [] => Ok (ResultRows (limit50 (map RowOther (orders db))), db)
    | _ => Throw "Parameter count mismatch"
    end
  else if (sql =? "SELECT * FROM foods LIMIT 50")%string then
    match params with
    | [] => Ok (ResultRows (limit50 (map RowOther (foods db))), db)
    | _ => Throw "Parameter count mismatch"
    end
  else if (sql =? "INSERT INTO customer (cust_code, cust_name, cust_city) VALUES (?, ?, ?)")%string then
    match params with
    | [Some k; n; c] =>
        match customer db !! k with
        | Some _ => Throw "Duplicate entry for key PRIMARY"
        | None =>
            Ok (OkPacket 1,
                set_customer (<[k := {| row_name := n; row_city := c |}]> (customer db)) db)
        end
    | [None; _; _] => Throw "Column cust_code cannot be null"
    | _ => Throw "Parameter count mismatch"
    end
  else if (sql =? "UPDATE customer SET cust_name=?, cust_city=? WHERE cust_code=?")%string then
    match params with
    | [n; c; k] =>
        Ok (update_where k (fun _ => {| row_name := n; row_city := c |}) db)
    | _ => Throw "Parameter count mismatch"
    end
  else if (sql =? "UPDATE customer SET cust_name=? WHERE cust_code=?")%string then
    match params with
    | [n; k] =>
        Ok (update_where k (fun r => {| row_name := n; row_city := row_city r |}) db)
    | _ => Throw "Parameter count mismatch"
    end
  else if (sql =? "UPDATE customer SET cust_city=? WHERE cust_code=?")%string then
    match params with
    | [c; k] =>
        Ok (update_where k (fun r => {| row_name := row_name r; row_city := c |}) db)
    | _ => Throw "Parameter count mismatch"
    end
  else if (sql =? "DELETE FROM customer WHERE cust_code=?")%string then
    match params with
    | [Some k] =>
        match customer db !! k with
        | Some _ => Ok (OkPacket 1, set_customer (delete k (customer db)) db)
        | None => Ok (OkPacket 0, db)
        end
    | [None] => Ok (OkPacket 0, db)
    | _ => Throw "Parameter count mismatch"
    end
  else Throw "You have an error in your SQL syntax".

(** ** The pool, the trace and the task monad *)

(** [connectionLimit: 5]. *)
Definition connectionLimit : nat := 5.

Inductive Event :=
| EvAcquire                                        (* pool.getConnection() resolved *)
| EvQuery (sql : string) (params : list SqlValue)  (* c.query(sql, params) sent *)
| EvRelease                                        (* c.release() *)
| EvResponse (r : Response).                       (* res.status(..).json(..) *)

(** What a request runs against: the store, the number of connections
    checked out of the pool, and the effects performed so far, oldest first. *)
Record World := { db : Database; in_use : nat; trace : list Event }.

(** Failures coming from outside the program while one request is served:
    the server cannot be reached, or the statement fails for a reason the
    table model does not decide. *)
Record Env := { connect_error : option string; query_error : option string }.

(** An [async] computation: it reads and changes the world and either
    returns or throws (a rejected promise under [await]). *)
Definition Task (A : Type) : Type := World -> Result A * World.

Definition ret {A} (a : A) : Task A := fun w => (Ok a, w).

Definition throw {A} (e : string) : Task A := fun w => (Throw e, w).

Definition bind {A B} (m : Task A) (k : A -> Task B) : Task B :=
  fun w =>
    match m w with
    | (Ok a, w') => k a w'
    | (Throw e, w') => (Throw e, w')
    end.

(** [try { m } catch (e) { h e }]. *)
Definition try_catch {A} (m : Task A) (h : string -> Task A) : Task A :=
  fun w =>
    match m w with
    | (Ok a, w') => (Ok a, w')
    | (Throw e, w') => h e w'
    end.

Notation "'let*' x ':=' m 'in' k" := (bind m (fun x => k))
  (at level 10, x name, m at level 100, k at level 200).
Notation "m ';;;' k" := (bind m (fun _ => k))
  (at level 100, k at level 200, right associativity).

Definition emit (e : Event) : Task unit :=
  fun w => (Ok tt, {| db := db w; in_use := in_use w; trace := trace w ++ [e] |}).

(** [res.status(s).json(j)]; the value is the response that was sent. *)
Definition respond (s : nat) (j : Json) : Task Response :=
  let r := {| status := s; json := j |} in
  emit (EvResponse r) ;;; ret r.

(** A connection handle; the model does not tell connections apart. *)
Definition Connection := unit.

Section Handlers.

Variable env : Env.

(** [await pool.getConnection()].  With every connection checked out the
    pool queues the caller and rejects it when the acquire timeout
    passes; nothing else runs during a request of this model, so the
    call rejects. *)
Definition getConnection : Task Connection :=
  fun w =>
    match connect_error env with
    | Some e => (Throw e, w)
    | None =>
        if (connectionLimit <=? in_use w)%nat
        then (Throw "retrieve connection from pool timeout", w)
        else (Ok tt, {| db := db w; in_use := S (in_use w);
                        trace := trace w ++ [EvAcquire] |})
    end.

(** [await c.query(sql, params)]. *)
Definition query (c : Connection) (sql : string) (params : list SqlValue)
  : Task QueryResult :=
  emit (EvQuery sql params) ;;;
  fun w =>
    match query_error env with
    | Some e => (Throw e, w)
    | None =>
        match run_sql sql params (db w) with
        | Ok (r, db') => (Ok r, {| db := db'; in_use := in_use w; trace := trace w |})
        | Throw e => (Throw e, w)
        end
    end.

(** [c.release()]. *)
Definition release (c : Connection) : Task unit :=
  fun w => (Ok tt, {| db := db w; in_use := pred (in_use w);
                      trace := trace w ++ [EvRelease] |}).

(** [handleValidation]: answer 400 with the collected errors, or call
    [next]. *)
Definition handleValidation (errors : list FieldError) (next : Task Response)
  : Task Response :=
  match errors with
  | [] => next
  | _ => respond 400 (JErrors errors)
  end.

(** [r.affectedRows]; [undefined] on a row array. *)
Definition affected (r : QueryResult) : option nat :=
  match r with OkPacket n => Some n | ResultRows _ => None end.

(** [r.affectedRows === 0]. *)
Definition affected_is_zero (r : QueryResult) : bool :=
  match affected r with Some 0 => true | _ => false end.

(** JavaScript truthiness of a body field: [undefined] and [''] are falsy. *)
Definition truthy (v : option string) : bool :=
  match v with
  | Some s => negb (String.length s =? 0)%nat
  | None => false
  end.

(** *** GET /health *)
Definition get_health (_req : Request) : Task Response :=
  try_catch
    (let* c := getConnection in
     let* r := query c "SELECT 1 AS ok" [] in
     release c ;;;
     match r with
     | ResultRows (RowOk n :: _) => respond 200 (JHealth "ok" (n =? 1)%nat)
     | ResultRows (_ :: _) => respond 200 (JHealth "ok" false)
     | _ => throw "TypeError: Cannot read properties of undefined (reading 'ok')"
     end)
    (fun _ => respond 500 (JHealth "error" false)).

(** *** GET /customers, /orders, /products *)
Definition get_customers (_req : Request) : Task Response :=
  try_catch
    (let* c := getConnection in
     let* rows := query c "SELECT * FROM customer LIMIT 50" [] in
     release c ;;;
     respond 200 (JResult rows))
    (fun e => respond 500 (JError e)).

Definition get_orders (_req : Request) : Task Response :=
  try_catch
    (let* c := getConnection in
     let* rows := query c "SELECT * FROM orders LIMIT 50" [] in
     release c ;;;
     respond 200 (JResult rows))
    (fun e => respond 500 (JError e)).

Definition get_products (_req : Request) : Task Response :=
  try_catch
    (let* c := getConnection in
     let* rows := query c "SELECT * FROM foods LIMIT 50" [] in
     release c ;;;
     respond 200 (JResult rows))
    (fun e => respond 500 (JError e)).

(** *** POST /customers *)

(** [body('cust_code').trim().isLength({ min: 1 }).withMessage('cust_code required')],
    [body('cust_name').trim().isLength({ min: 1 }).withMessage('cust_name required')],
    [body('cust_city').optional().trim().escape()]. *)
Definition post_validators (req : Request) : Request * list FieldError :=
  let '(code', e1) :=
    run_chain {| field := "cust_code"; optional := false;
                 items := [Trim; IsLengthMin 1 "cust_code required"] |}
              (cust_code (body req)) in
  let '(name', e2) :=
    run_chain {| field := "cust_name"; optional := false;
                 items := [Trim; IsLengthMin 1 "cust_name required"] |}
              (cust_name (body req)) in
  let '(city', e3) :=
    run_chain {| field := "cust_city"; optional := true;
                 items := [Trim; Escape] |}
              (cust_city (body req)) in
  ({| id := id req;
      body := {| cust_code := code'; cust_name := name'; cust_city := city' |} |},
   e1 ++ e2 ++ e3).

Definition post_handler (req : Request) : Task Response :=
  match cust_code (body req) with
  | None => throw "TypeError: Cannot read properties of undefined (reading 'trim')"
  | Some code_ =>
      let payload :=
        {| payload_code := trim code_;
           payload_name := titleCase_arg (cust_name (body req));
           payload_city :=
             if truthy (cust_city (body req))
             then Some (titleCase_arg (cust_city (body req))) else None |} in
      try_catch
        (let* c := getConnection in
         let* _r := query c
           "INSERT INTO customer (cust_code, cust_name, cust_city) VALUES (?, ?, ?)"
           [Some (payload_code payload); Some (payload_name payload);
            payload_city payload] in
         release c ;;;
         respond 201 (JCreated "Customer created" payload))
        (fun e => respond 500 (JError e))
  end.

Definition post_customers (req : Request) : Task Response :=
  let '(req', errors) := post_validators req in
  handleValidation errors (post_handler req').

(** *** PATCH /customers/:id *)

(** [param('id').trim().notEmpty()], [body('cust_name').optional().trim()],
    [body('cust_city').optional().trim()]. *)
Definition patch_validators (req : Request) : Request * list FieldError :=
  let '(id', e1) :=
    run_chain {| field := "id"; optional := false; items := [Trim; NotEmpty] |}
              (Some (id req)) in
  let '(name', e2) :=
    run_chain {| field := "cust_name"; optional := true; items := [Trim] |}
              (cust_name (body req)) in
  let '(city', e3) :=
    run_chain {| field := "cust_city"; optional := true; items := [Trim] |}
              (cust_city (body req)) in
  ({| id := toString id';
      body := {| cust_code := cust_code (body req);
                 cust_name := name'; cust_city := city' |} |},
   e1 ++ e2 ++ e3).

(** [fields.join(', ')]. *)
Fixpoint join (sep : string) (l : list string) : string :=
  match l with
  | [] => ""
  | [x] => x
  | x :: rest => x +:+ sep +:+ join sep rest
  end.

(** The two arrays the handler fills before it touches the pool:
    [fields] and [params] (the latter before the id is pushed). *)
Definition patch_fields (b : Body) : list string * list SqlValue :=
  let fields := [] in
  let params := [] in
  let '(fields, params) :=
    match cust_name b with
    | Some v => (fields ++ ["cust_name=?"], params ++ [Some (titleCase v)])
    | None => (fields, params)
    end in
  let '(fields, params) :=
    match cust_city b with
    | Some v => (fields ++ ["cust_city=?"], params ++ [Some (titleCase v)])
    | None => (fields, params)
    end in
  (fields, params).

(** The text of the statement built from [fields]. *)
Definition patch_sql (fields : list string) : string :=
  "UPDATE customer SET " +:+ join ", " fields +:+ " WHERE cust_code=?".

Definition patch_handler (req : Request) : Task Response :=
  try_catch
    (let '(fields, params) := patch_fields (body req) in
     if (length fields =? 0)%nat
     then respond 400 (JError "No updatable fields")
     else
       let params := params ++ [Some (id req)] in
       let* c := getConnection in
       let* r := query c (patch_sql fields) params in
       release c ;;;
       if affected_is_zero r
       then respond 404 (JError "Customer not found")
       else respond 200 (JMessage "Customer updated"))
    (fun e => respond 500 (JError e)).

Definition patch_customers (req : Request) : Task Response :=
  let '(req', errors) := patch_validators req in
  handleValidation errors (patch_handler req').

(** *** PUT /customers/:id *)

(** [param('id').trim().notEmpty()], [body('cust_name').trim().notEmpty()],
    [body('cust_city').optional().trim()]. *)
Definition put_validators (req : Request) : Request * list FieldError :=
  let '(id', e1) :=
    run_chain {| field := "id"; optional := false; items := [Trim; NotEmpty] |}
              (Some (id req)) in
  let '(name', e2) :=
    run_chain {| field := "cust_name"; optional := false; items := [Trim; NotEmpty] |}
              (cust_name (body req)) in
  let '(city', e3) :=
    run_chain {| field := "cust_city"; optional := true; items := [Trim] |}
              (cust_city (body req)) in
  ({| id := toString id';
      body := {| cust_code := cust_code (body req);
                 cust_name := name'; cust_city := city' |} |},
   e1 ++ e2 ++ e3).

Definition put_handler (req : Request) : Task Response :=
  try_catch
    (let* c := getConnection in
     let* r := query c
       "UPDATE customer SET cust_name=?, cust_city=? WHERE cust_code=?"
       [Some (titleCase_arg (cust_name (body req)));
        if truthy (cust_city (body req))
        then Some (titleCase_arg (cust_city (body req))) else None;
        Some (id req)] in
     release c ;;;
     if affected_is_zero r
     then respond 404 (JError "Customer not found")
     else respond 200 (JMessage "Customer replaced"))
    (fun e => respond 500 (JError e)).

Definition put_customers (req : Request) : Task Response :=
  let '(req', errors) := put_validators req in
  handleValidation errors (put_handler req').

(** *** DELETE /customers/:id *)

(** [param('id').trim().notEmpty()]. *)
Definition delete_validators (req : Request) : Request * list FieldError :=
  let '(id', e1) :=
    run_chain {| field := "id"; optional := false; items := [Trim; NotEmpty] |}
              (Some (id req)) in
  ({| id := toString id'; body := body req |}, e1).

Definition delete_handler (req : Request) : Task Response :=
  try_catch
    (let* c := getConnection in
     let* r := query c "DELETE FROM customer WHERE cust_code=?" [Some (id req)] in
     release c ;;;
     if affected_is_zero r
     then respond 404 (JError "Customer not found")
     else respond 200 (JMessage "Customer deleted"))
    (fun e => respond 500 (JError e)).

Definition delete_customers (req : Request) : Task Response :=
  let '(req', errors) := delete_validators req in
  handleValidation errors (delete_handler req').

End Handlers.

(** ** Worlds and requests used in the examples *)

Definition no_faults : Env := {| connect_error := None; query_error := None |}.

Definition empty_db : Database := {| customer := ∅; orders := []; foods := [] |}.

Definition fresh (d : Database) : World := {| db := d; in_use := 0; trace := [] |}.

Definition mk_body (c n t : option string) : Body :=
  {| cust_code := c; cust_name := n; cust_city := t |}.

Definition mk_req (i : string) (c n t : option string) : Request :=
  {| id := i; body := mk_body c n t |}.

(** One stored customer: C1, "Jane Doe" of "New York". *)
Definition db_jane : Database :=
  {| customer := {[ "C1" := {| row_name := Some "Jane Doe"; row_city := Some "New York" |} ]};
     orders := []; foods := [] |}.

(** ** Reference definitions for the normalisation rule *)

(** The rule as the specification words it: "lowercase the full string,
    then uppercase the first letter of each whitespace-delimited word".
    [at_start] holds at the start of the string and after white space. *)
Fixpoint capitalize_words (at_start : bool) (s : string) : string :=
  match s with
  | EmptyString => EmptyString
  | String c r =>
      if isWhiteSpace c then String c (capitalize_words true r)
      else String (if at_start then toUpperCase_char c else c)
                  (capitalize_words false r)
  end.

Definition titleCase_ref (s : string) : string :=
  capitalize_words true (toLowerCase s).

(** An ASCII letter, [[A-Za-z]]. *)
Definition is_letter (c : ascii) : bool :=
  in_range 65 90 c || in_range 97 122 c.

(** Position [i] of [t] starts a word in the sense of [\b]: it holds an
    ASCII letter and is the first position or follows a non-word
    character. *)
Definition word_start (t : string) (i : nat) : bool :=
  match String.get i t with
  | Some c =>
      is_letter c &&
      match i with
      | O => true
      | S j => negb (is_word (String.get j t))
      end
  | None => false
  end.

(** Every character is a word character or white space: the strings on
    which words are delimited by white space alone. *)
Fixpoint words_and_spaces (s : string) : bool :=
  match s with
  | EmptyString => true
  | String c r => (is_word_char c || isWhiteSpace c) && words_and_spaces r
  end.

(** No white space at the front, respectively at the back. *)
Definition no_leading_space (s : string) : bool :=
  match s with
  | EmptyString => true
  | String c _ => negb (isWhiteSpace c)
  end.

Fixpoint no_trailing_space (s : string) : bool :=
  match s with
  | EmptyString => true
  | String c EmptyString => negb (isWhiteSpace c)
  | String _ r => no_trailing_space r
  end.

(** ** Observing one request *)

(** The world after some effects: store [d], [n] connections checked out,
    and [evs] appended to the trace. *)
Definition set_world (d : Database) (n : nat) (evs : list Event) (w : World) : World :=
  {| db := d; in_use := n; trace := trace w ++ evs |}.

(** The effects a request added to the trace. *)
Definition new_events (w w' : World) : list Event :=
  drop (length (trace w)) (trace w').

(** The resource discipline read off a trace: with [held] connections
    checked out on entry, every statement runs on a checked-out connection,
    every response is sent with none checked out, and none stays checked
    out at the end. *)
Fixpoint released_before_response (held : nat) (evs : list Event) : bool :=
  match evs with
  | [] => (held =? 0)%nat
  | EvAcquire :: r => released_before_response (S held) r
  | EvQuery _ _ :: r => (0 <? held)%nat && released_before_response held r
  | EvRelease :: r =>
      match held with
      | O => false
      | S h => released_before_response h r
      end
  | EvResponse _ :: r => (held =? 0)%nat && released_before_response held r
  end.

(** Is the body field supplied ([!== undefined])? *)
Definition supplied (v : option string) : bool :=
  match v with Some _ => true | None => false end.

(** [hay.includes(needle)]. *)
Fixpoint includes (needle hay : string) : bool :=
  String.prefix needle hay ||
  match hay with
  | EmptyString => false
  | String _ r => includes needle r
  end.

(** Does the string hold one of the characters [validator.escape] rewrites
    other than the ampersand: a double or single quote, an angle bracket, a
    slash, a backslash or a backquote? *)
Definition is_markup_char (c : ascii) : bool :=
  (code c =? 34)%N || (code c =? 39)%N || (code c =? 60)%N || (code c =? 62)%N ||
  (code c =? 47)%N || (code c =? 92)%N || (code c =? 96)%N.

Fixpoint has_markup (s : string) : bool :=
  match s with
  | EmptyString => false
  | String c r => is_markup_char c || has_markup r
  end.

(** The three mutations of a stored customer and their routes. *)
Inductive Mutation := PartialUpdate | Replace | Delete.

Definition mutation_route (env : Env) (m : Mutation) : Request -> Task Response :=
  match m with
  | PartialUpdate => patch_customers env
  | Replace => put_customers env
  | Delete => delete_customers env
  end.

Definition no_errors (errors : list FieldError) : bool :=
  match errors with [] => true | _ => false end.

(** The request gets past the route's own checks: its validation chains
    report nothing and, for a partial update, [fields] is not empty. *)
Definition accepted (m : Mutation) (req : Request) : bool :=
  match m with
  | PartialUpdate =>
      no_errors (snd (patch_validators req)) &&
      negb (length (fst (patch_fields (body (fst (patch_validators req))))) =? 0)%nat
  | Replace => no_errors (snd (put_validators req))
  | Delete => no_errors (snd (delete_validators req))
  end.

(** What [param('id').trim().notEmpty()] reports. *)
Definition id_errors (i : string) : list FieldError :=
  if (String.length (trim i) =? 0)%nat
  then [{| msg := "Invalid value"; param := "id"; value := trim i |}] else [].

(** What [body('cust_name').trim().notEmpty()] reports. *)
Definition name_errors (n : option string) : list FieldError :=
  if (String.length (trim (toString n)) =? 0)%nat
  then [{| msg := "Invalid value"; param := "cust_name"; value := trim (toString n) |}]
  else [].

(** The row a partial update with body [b] leaves in place of [r]:
    supplied fields are overwritten with their normalised value, the
    others are kept. *)
Definition patched_row (b : Body) (r : Customer) : Customer :=
  {| row_name := match cust_name b with
                 | Some v => Some (titleCase v)
                 | None => row_name r
                 end;
     row_city := match cust_city b with
                 | Some v => Some (titleCase v)
                 | None => row_city r
                 end |}.

(** [v ? titleCase(v) : null] on a field the chain has rewritten with [f]. *)
Definition normalised_or_null (f : string -> string) (v : option string) : SqlValue :=
  match v with
  | Some c => if (String.length (f c) =? 0)%nat then None else Some (titleCase (f c))
  | None => None
  end.

(** The eight routes that take a connection from the pool. *)
Inductive Endpoint :=
| GetHealth | GetCustomers | GetOrders | GetProducts
| PostCustomers | PatchCustomers | PutCustomers | DeleteCustomers.

Definition serve (env : Env) (ep : Endpoint) : Request -> Task Response :=
  match ep with
  | GetHealth => get_health env
  | GetCustomers => get_customers env
  | GetOrders => get_orders env
  | GetProducts => get_products env
  | PostCustomers => post_customers env
  | PatchCustomers => patch_customers env
  | PutCustomers => put_customers env
  | DeleteCustomers => delete_customers env
  end.

(** The three ways a request can end.  [answered_without_store]: nothing was
    taken from the pool.  [answered_holding]: the statement threw and the
    answer was sent with the connection still checked out.
    [answered_after_release]: the statement ran, the connection went back,
    then the answer was sent. *)
Definition answered_without_store (w : World) (out : Result Response * World) : Prop :=
  exists r, out = (Ok r, set_world (db w) (in_use w) [EvResponse r] w).

Definition answered_holding (w : World) (out : Result Response * World) : Prop :=
  exists r sql params,
    status r = 500 /\
    out = (Ok r, set_world (db w) (S (in_use w))
                   [EvAcquire; EvQuery sql params; EvResponse r] w).

Definition answered_after_release (w : World) (out : Result Response * World) : Prop :=
  exists r sql params d',
    status r <> 500 /\
    out = (Ok r, set_world d' (in_use w)
                   [EvAcquire; EvQuery sql params; EvRelease; EvResponse r] w).

(** What [.trim().isLength({ min: 1 }).withMessage(m)] reports. *)
Definition required_errors (fld m : string) (v : option string) : list FieldError :=
  if (1 <=? String.length (trim (toString v)))%nat then []
  else [{| msg := m; param := fld; value := trim (toString v) |}].

(** The errors of the create route: code, then name. *)
Definition post_errors (b : Body) : list FieldError :=
  required_errors "cust_code" "cust_code required" (cust_code b) ++
  required_errors "cust_name" "cust_name required" (cust_name b).

(** The [payload] of the create handler in terms of the raw body. *)
Definition post_payload (b : Body) : Payload :=
  {| payload_code := trim (toString (cust_code b));
     payload_name := titleCase (toString (cust_name b));
     payload_city := normalised_or_null (fun c => escape (trim c)) (cust_city b) |}.

(** ** GET /say and the echo function *)

(** The characters [encodeURIComponent] leaves as they are: ASCII letters
    and digits and [- _ . ! ~ * ' ( )]. *)
Definition uri_unreserved (c : ascii) : bool :=
  in_range 48 57 c || in_range 65 90 c || in_range 97 122 c ||
  (code c =? 45)%N || (code c =? 95)%N || (code c =? 46)%N || (code c =? 33)%N ||
  (code c =? 126)%N || (code c =? 42)%N || (code c =? 39)%N || (code c =? 40)%N ||
  (code c =? 41)%N.

(** An upper-case hexadecimal digit. *)
Definition hex_digit (n : N) : ascii :=
  if (n <? 10)%N then ascii_of_N (48 + n) else ascii_of_N (55 + n).

(** [%XY] for one octet. *)
Definition percent (octet : N) : string :=
  String "%" (String (hex_digit (octet / 16)) (String (hex_digit (octet mod 16)) "")).

(** One code unit through [encodeURIComponent]: kept when unreserved,
    otherwise the octets of its UTF-8 form, each as [%XY] -- one octet
    below U+0080, two (110xxxxx 10xxxxxx) from U+0080 to U+00FF. *)
Definition encode_unit (c : ascii) : string :=
  if uri_unreserved c then String c ""
  else if (code c <? 128)%N then percent (code c)
  else percent (192 + code c / 64) +:+ percent (128 + code c mod 64).

(** [encodeURIComponent]. *)
Fixpoint encodeURIComponent (s : string) : string :=
  match s with
  | EmptyString => EmptyString
  | String c r => encode_unit c +:+ encodeURIComponent r
  end.

(** The URL the handler requests:
    [`https://YOUR_FUNCTION_URL?keyword=${encodeURIComponent(keyword)}`]. *)
Definition say_url (keyword : string) : string :=
  "https://YOUR_FUNCTION_URL?keyword=" +:+ encodeURIComponent keyword.

(** [await p] on a promise that has settled as [r]. *)
Definition await {A} (r : Result A) : Task A := fun w => (r, w).

(** [app.get('/say', ...)].  [axios_get] is the remote end: what
    [axios.get(url)] resolves to ([response.data]) or rejects with
    ([err.message]).  [keyword] is [req.query.keyword]. *)
Definition get_say (axios_get : string -> Result string) (keyword : option string)
  : Task Response :=
  if negb (truthy keyword)
  then respond 400 (JError "Missing 'keyword' parameter")
  else
    try_catch
      (let* data := await (axios_get (say_url (toString keyword))) in
       respond 200 (JMessage data))
      (fun err => respond 500 (JError err)).

(** The echo function ([exports.handler]). *)
Module Lambda.

Record QueryStringParameters := { keyword : option string }.

(** The [event] object, as far as the handler reads it. *)
Record Event := { queryStringParameters : option QueryStringParameters }.

Record Reply := { statusCode : nat; body : string }.

(** [event.queryStringParameters?.keyword]. *)
Definition optional_keyword (event : Event) : option string :=
  match queryStringParameters event with
  | Some q => keyword q
  | None => None
  end.

(** [a || b] on an optional string: [b] when [a] is [undefined] or empty. *)
Definition or_else (a : option string) (b : string) : string :=
  match a with
  | Some s => if (String.length s =? 0)%nat then b else s
  | None => b
  end.

Definition handler (event : Event) : Reply :=
  let keyword := or_else (optional_keyword event) "nothing" in
  let name := "Serina Oswalt" in
  let message := name +:+ " says " +:+ keyword in
  {| statusCode := 200; body := message |}.

End Lambda.

(** A reader of what [encodeURIComponent] writes: [%XY] octets are put
    back together, any other character stands for itself. *)
Definition hex_value (c : ascii) : N :=
  if in_range 48 57 c then code c - 48 else code c - 55.

Fixpoint decode_units (s : string) : string :=
  match s with
  | EmptyString => EmptyString
  | String c r =>
      if negb (Ascii.eqb c "%") then String c (decode_units r)
      else
        match r with
        | String a (String b r1) =>
            let octet := (16 * hex_value a + hex_value b)%N in
            if (octet <? 128)%N then String (ascii_of_N octet) (decode_units r1)
            else
              match r1 with
              | String _ (String a2 (String b2 r2)) =>
                  let octet2 := (16 * hex_value a2 + hex_value b2)%N in
                  String (ascii_of_N ((octet - 192) * 64 + (octet2 - 128)))
                         (decode_units r2)
              | _ => String c (decode_units r)
              end
        | _ => String c (decode_units r)
        end
  end.

(** Every character is unreserved or a percent sign. *)
Fixpoint uri_safe (s : string) : bool :=
  match s with
  | EmptyString => true
  | String c r => (uri_unreserved c || Ascii.eqb c "%") && uri_safe r
  end.

(** ** Store-level reading of the endpoints *)

(** The three listings and the table each reads. *)
Inductive Listing := ListCustomers | ListOrders | ListProducts.

Definition listing_endpoint (l : Listing) : Endpoint :=
  match l with
  | ListCustomers => GetCustomers
  | ListOrders => GetOrders
  | ListProducts => GetProducts
  end.

Definition table_size (l : Listing) (d : Database) : nat :=
  match l with
  | ListCustomers => size (customer d)
  | ListOrders => length (orders d)
  | ListProducts => length (foods d)
  end.

(** A connection can be taken and a statement can run. *)
Definition store_reachable (env : Env) (w : World) : bool :=
  match connect_error env, query_error env with
  | None, None => (in_use w <? connectionLimit)%nat
  | _, _ => false
  end.

(** The request gets past validation (and, for a partial update, past the
    empty-[fields] guard). *)
Definition validation_ok (ep : Endpoint) (req : Request) : bool :=
  match ep with
  | PostCustomers => no_errors (snd (post_validators req))
  | PatchCustomers => accepted PartialUpdate req
  | PutCustomers => accepted Replace req
  | DeleteCustomers => accepted Delete req
  | _ => true
  end.

(** The handler gets as far as having its statement executed by the
    store. *)
Definition statement_runs (env : Env) (ep : Endpoint) (req : Request) (w : World) : bool :=
  validation_ok ep req && store_reachable env w.

(** What the executed statement of each endpoint does to the store. *)
Definition effect (ep : Endpoint) (req : Request) (d : Database) : Database :=
  let k := trim (id req) in
  match ep with
  | PostCustomers =>
      let p := post_payload (body req) in
      match customer d !! payload_code p with
      | Some _ => d
      | None =>
          set_customer
            (<[payload_code p := {| row_name := Some (payload_name p);
                                    row_city := payload_city p |}]> (customer d)) d
      end
  | PatchCustomers =>
      match customer d !! k with
      | Some r => set_customer (<[k := patched_row (body req) r]> (customer d)) d
      | None => d
      end
  | PutCustomers =>
      match customer d !! k with
      | Some _ =>
          set_customer
            (<[k := {| row_name := Some (titleCase (toString (cust_name (body req))));
                       row_city := normalised_or_null trim (cust_city (body req)) |}]>
               (customer d)) d
      | None => d
      end
  | DeleteCustomers =>
      match customer d !! k with
      | Some _ => set_customer (delete k (customer d)) d
      | None => d
      end
  | _ => d
  end.

(** The statuses each endpoint can answer with. *)
Definition statuses (ep : Endpoint) : list nat :=
  match ep with
  | GetHealth | GetCustomers | GetOrders | GetProducts => [200; 500]
  | PostCustomers => [201; 400; 500]
  | PatchCustomers | PutCustomers | DeleteCustomers => [200; 400; 404; 500]
  end.

(** ** A request without a parsed body

    [express.json()] parses a body only when one is sent; a request sent
    without one reaches the route with [req.body] undefined.  [Request]
    above always carries a body; [Incoming] is the request as it arrives,
    with the body that was parsed, if any. *)

Record Incoming := { path_id : string; json_body : option Body }.

(** Every field of a missing body reads as [undefined]. *)
Definition empty_body : Body :=
  {| cust_code := None; cust_name := None; cust_city := None |}.

(** PATCH /customers/:id on an incoming request.  The chains read the body
    fields through a safe lookup, so with no body they see [undefined],
    skip (both are optional) and write nothing back.  The handler then
    reads [req.body.cust_name] directly, as the first thing inside its
    [try]: with no body that read throws, and the [catch] answers with
    the message of the TypeError. *)
Definition patch_route (env : Env) (r : Incoming) : Task Response :=
  let '(req', errors) :=
    patch_validators
      {| id := path_id r;
         body := match json_body r with Some b => b | None => empty_body end |} in
  handleValidation errors
    (match json_body r with
     | Some _ => patch_handler env req'
     | None =>
         try_catch
           (throw "Cannot read properties of undefined (reading 'cust_name')")
           (fun e => respond 500 (JError e))
     end).

(** * Properties *)

(** ** Characters *)

Ltac all_chars c := destruct c as [[] [] [] [] [] [] [] []].

Lemma isWhiteSpace_toLowerCase c :
  isWhiteSpace (toLowerCase_char c) = isWhiteSpace c.
Proof. all_chars c; reflexivity. Qed.

Lemma isWhiteSpace_toUpperCase c :
  isWhiteSpace (toUpperCase_char c) = isWhiteSpace c.
Proof. all_chars c; reflexivity. Qed.

Lemma toLowerCase_char_idem c :
  toLowerCase_char (toLowerCase_char c) = toLowerCase_char c.
Proof. all_chars c; reflexivity. Qed.

Lemma toLowerCase_toUpperCase_a_z c :
  is_a_z c = true -> toLowerCase_char (toUpperCase_char c) = c.
Proof. all_chars c; intros H; try reflexivity; discriminate H. Qed.

Lemma is_word_char_toLowerCase c :
  is_word_char (toLowerCase_char c) = is_word_char c.
Proof. all_chars c; reflexivity. Qed.

Lemma is_a_z_toLowerCase c : is_a_z (toLowerCase_char c) = is_letter c.
Proof. all_chars c; reflexivity. Qed.

Lemma is_a_z_word c : is_a_z c = true -> is_word_char c = true.
Proof. all_chars c; intros H; try reflexivity; discriminate H. Qed.

Lemma whitespace_not_word c : isWhiteSpace c = true -> is_word_char c = false.
Proof. all_chars c; intros H; try reflexivity; discriminate H. Qed.

(** ** Trimming *)

Lemma trimStart_fixed s : no_leading_space s = true -> trimStart s = s.
Proof.
  destruct s as [|c r]; simpl; [reflexivity|].
  destruct (isWhiteSpace c); [discriminate | reflexivity].
Qed.

Lemma trimEnd_fixed s : no_trailing_space s = true -> trimEnd s = s.
Proof.
  induction s as [|c r IH]; [reflexivity|].
  destruct r as [|d r'].
  - simpl. destruct (isWhiteSpace c); [discriminate | reflexivity].
  - intros H. change (no_trailing_space (String d r') = true) in H.
    specialize (IH H).
    change (trimEnd (String c (String d r')))
      with (match trimEnd (String d r') with
            | EmptyString => if isWhiteSpace c then EmptyString else String c EmptyString
            | r0 => String c r0
            end).
    rewrite IH. reflexivity.
Qed.

Lemma no_leading_space_trimStart s : no_leading_space (trimStart s) = true.
Proof.
  induction s as [|c r IH]; [reflexivity|].
  simpl. destruct (isWhiteSpace c) eqn:E; [exact IH|].
  simpl. rewrite E. reflexivity.
Qed.

Lemma no_trailing_space_trimEnd s : no_trailing_space (trimEnd s) = true.
Proof.
  induction s as [|c r IH]; [reflexivity|].
  simpl. destruct (trimEnd r) as [|d r'] eqn:E.
  - destruct (isWhiteSpace c) eqn:W; simpl; [reflexivity | rewrite W; reflexivity].
  - exact IH.
Qed.

Lemma no_leading_space_trimEnd s :
  no_leading_space s = true -> no_leading_space (trimEnd s) = true.
Proof.
  destruct s as [|c r]; [reflexivity|].
  simpl. intros H. destruct (trimEnd r); [|exact H].
  destruct (isWhiteSpace c) eqn:W; [discriminate H|].
  simpl. rewrite W. reflexivity.
Qed.

Lemma trim_clean s :
  no_leading_space (trim s) = true /\ no_trailing_space (trim s) = true.
Proof.
  unfold trim. split.
  - apply no_leading_space_trimEnd, no_leading_space_trimStart.
  - apply no_trailing_space_trimEnd.
Qed.

Lemma trim_fixed s :
  no_leading_space s = true -> no_trailing_space s = true -> trim s = s.
Proof.
  intros H1 H2. unfold trim. rewrite (trimStart_fixed s H1). apply trimEnd_fixed, H2.
Qed.

Lemma trim_idempotent s : trim (trim s) = trim s.
Proof. destruct (trim_clean s). apply trim_fixed; assumption. Qed.

(** ** Case mapping and the word-boundary replacement keep a trimmed
       string trimmed *)

Lemma no_leading_space_toLowerCase s :
  no_leading_space (toLowerCase s) = no_leading_space s.
Proof.
  destruct s as [|c r]; [reflexivity|].
  simpl. rewrite isWhiteSpace_toLowerCase. reflexivity.
Qed.

Lemma no_trailing_space_toLowerCase s :
  no_trailing_space (toLowerCase s) = no_trailing_space s.
Proof.
  induction s as [|c r IH]; [reflexivity|].
  destruct r as [|d r'].
  - simpl. rewrite isWhiteSpace_toLowerCase. reflexivity.
  - exact IH.
Qed.

Lemma replaced_char_space p c :
  isWhiteSpace (if matches_b_a_z p c then toUpperCase_char c else c) = isWhiteSpace c.
Proof.
  destruct (matches_b_a_z p c); [apply isWhiteSpace_toUpperCase | reflexivity].
Qed.

Lemma no_leading_space_replace p s :
  no_leading_space (replace_b_a_z p s) = no_leading_space s.
Proof.
  destruct s as [|c r]; [reflexivity|].
  simpl. rewrite replaced_char_space. reflexivity.
Qed.

Lemma no_trailing_space_replace s :
  forall p, no_trailing_space (replace_b_a_z p s) = no_trailing_space s.
Proof.
  induction s as [|c r IH]; intros p; [reflexivity|].
  destruct r as [|d r'].
  - simpl. rewrite replaced_char_space. reflexivity.
  - exact (IH (Some c)).
Qed.

(** Lower-casing undoes the replacement on a lower-cased string. *)
Lemma toLowerCase_replace s :
  forall p,
    toLowerCase (replace_b_a_z p (toLowerCase s)) = toLowerCase s.
Proof.
  induction s as [|c r IH]; intros p; [reflexivity|].
  unfold toLowerCase in *. simpl. rewrite IH. f_equal.
  unfold matches_b_a_z.
  destruct (is_a_z (toLowerCase_char c)) eqn:E.
  - destruct (word_boundary p (Some (toLowerCase_char c))); simpl.
    + apply toLowerCase_toUpperCase_a_z, E.
    + apply toLowerCase_char_idem.
  - rewrite andb_false_r. apply toLowerCase_char_idem.
Qed.

Lemma titleCase_trimmed s : trim (titleCase s) = titleCase s.
Proof.
  unfold titleCase. destruct (trim_clean s) as [H1 H2].
  apply trim_fixed.
  - rewrite no_leading_space_replace, no_leading_space_toLowerCase. exact H1.
  - rewrite no_trailing_space_replace, no_trailing_space_toLowerCase. exact H2.
Qed.

(** ** C7 *)

(** C7.  The normalisation helper is idempotent: for every string [s],
    [titleCase (titleCase s) = titleCase s]. *)
Theorem titleCase_idempotent (s : string) :
  titleCase (titleCase s) = titleCase s.
Proof.
  unfold titleCase at 1. rewrite titleCase_trimmed.
  unfold titleCase. rewrite toLowerCase_replace. reflexivity.
Qed.

(** ** C6 *)

(** The helper, position by position. *)
Lemma get_replace_toLowerCase t :
  forall p i,
    String.get i (replace_b_a_z p (toLowerCase t)) =
    match String.get i t with
    | Some c =>
        Some (if is_letter c &&
                 negb (is_word (match i with O => p | S j => String.get j t end))
              then toUpperCase_char (toLowerCase_char c)
              else toLowerCase_char c)
    | None => None
    end.
Proof.
  induction t as [|c r IH]; intros p i; [destruct i; reflexivity|].
  destruct i as [|i].
  - simpl. f_equal. unfold matches_b_a_z, word_boundary. simpl is_word.
    rewrite is_a_z_toLowerCase, is_word_char_toLowerCase.
    destruct (is_letter c) eqn:L.
    + assert (W : is_word_char c = true).
      { rewrite <- is_word_char_toLowerCase. apply is_a_z_word.
        rewrite is_a_z_toLowerCase. exact L. }
      rewrite W. destruct (is_word p); reflexivity.
    + rewrite andb_false_r. reflexivity.
  - change (String.get (S i) (replace_b_a_z p (toLowerCase (String c r))))
      with (String.get i (replace_b_a_z (Some (toLowerCase_char c)) (toLowerCase r))).
    rewrite IH. change (String.get (S i) (String c r)) with (String.get i r).
    destruct (String.get i r) as [d|]; [|reflexivity].
    destruct i as [|j]; [|reflexivity].
    simpl is_word. rewrite is_word_char_toLowerCase. reflexivity.
Qed.

(** C6 (amended).  For every string [s] and position [i], the character of
    [titleCase s] at [i] is the character of the trimmed input at [i],
    lower-cased, and then upper-cased exactly when the position starts a
    word in the sense of the regular expression [\b[a-z]]: it holds an
    ASCII letter that is first in the string or follows a character
    outside [[A-Za-z0-9_]].  Any such character delimits words, not only
    white space, and the input is trimmed first. *)
Theorem titleCase_by_position (s : string) (i : nat) :
  String.get i (titleCase s) =
  match String.get i (trim s) with
  | Some c =>
      Some (if word_start (trim s) i
            then toUpperCase_char (toLowerCase_char c)
            else toLowerCase_char c)
  | None => None
  end.
Proof.
  unfold titleCase. rewrite get_replace_toLowerCase. unfold word_start.
  destruct (String.get i (trim s)) as [c|] eqn:E; [|reflexivity].
  destruct i; reflexivity.
Qed.

(** The rule as worded fails on a hyphenated name: the helper capitalises
    after the hyphen, the reference transform does not. *)
Lemma titleCase_differs_from_reference :
  ~ (forall s : string, titleCase s = titleCase_ref s).
Proof.
  intros H. specialize (H "jean-luc"). vm_compute in H. discriminate H.
Qed.

(** With only word characters and white space in the string, the
    replacement capitalises where the reference does. *)
Lemma replace_capitalize_agree s :
  forall p,
    words_and_spaces s = true ->
    replace_b_a_z p (toLowerCase s) =
    capitalize_words (negb (is_word p)) (toLowerCase s).
Proof.
  induction s as [|c r IH]; intros p H; [reflexivity|].
  simpl in H. apply andb_true_iff in H as [Hc Hr].
  unfold toLowerCase in *. simpl.
  rewrite (IH (Some (toLowerCase_char c)) Hr). simpl is_word.
  rewrite isWhiteSpace_toLowerCase, is_word_char_toLowerCase.
  unfold matches_b_a_z, word_boundary. simpl is_word.
  rewrite is_word_char_toLowerCase, is_a_z_toLowerCase.
  destruct (isWhiteSpace c) eqn:W.
  - rewrite (whitespace_not_word c W). simpl.
    assert (L : is_letter c = false).
    { destruct (is_letter c) eqn:L; [|reflexivity].
      rewrite <- is_a_z_toLowerCase in L. apply is_a_z_word in L.
      rewrite is_word_char_toLowerCase, (whitespace_not_word c W) in L.
      discriminate L. }
    rewrite L, andb_false_r. reflexivity.
  - rewrite orb_false_r in Hc. rewrite Hc. simpl.
    destruct (is_word p); simpl.
    + reflexivity.
    + destruct (is_letter c) eqn:L; [reflexivity|].
      f_equal. revert L Hc. clear.
      all_chars c; intros L Hc;
        first [reflexivity | discriminate L | discriminate Hc].
Qed.

(** Where words are delimited by white space alone, the helper is the
    reference transform: on a trimmed string whose characters are word
    characters or white space, [titleCase] and [titleCase_ref] agree. *)
Theorem titleCase_agrees_with_reference (s : string) :
  trim s = s -> words_and_spaces s = true -> titleCase s = titleCase_ref s.
Proof.
  intros T H. unfold titleCase, titleCase_ref. rewrite T.
  apply (replace_capitalize_agree s None H).
Qed.

Lemma titleCase_agrees_with_reference_witness :
  titleCase "jane van_der DOE 3rd" = titleCase_ref "jane van_der DOE 3rd".
Proof.
  apply (titleCase_agrees_with_reference "jane van_der DOE 3rd"); reflexivity.
Defined.

(** ** Running a handler *)

(** Every handler that touches the store has the same shape: inside one
    [try], take a connection, run one statement, release, then answer.
    This is what that shape does. *)
Lemma session_run env sql params (k : QueryResult -> Task Response)
      (h : string -> Task Response) w :
  try_catch
    (let* c := getConnection env in
     let* r := query env c sql params in
     release c ;;; k r) h w
  = match connect_error env with
    | Some e => h e w
    | None =>
        if (connectionLimit <=? in_use w)%nat
        then h "retrieve connection from pool timeout" w
        else
          let held := set_world (db w) (S (in_use w)) [EvAcquire; EvQuery sql params] w in
          match query_error env with
          | Some e => h e held
          | None =>
              match run_sql sql params (db w) with
              | Throw e => h e held
              | Ok (r, d') =>
                  try_catch (k r) h
                    (set_world d' (in_use w) [EvAcquire; EvQuery sql params; EvRelease] w)
              end
          end
    end.
Proof.
  unfold try_catch, getConnection, query, release, emit, set_world, bind.
  destruct (connect_error env); [reflexivity|].
  destruct (connectionLimit <=? in_use w)%nat; [reflexivity|].
  cbn [db in_use trace].
  destruct (query_error env); cbn [db in_use trace].
  - rewrite <- app_assoc. reflexivity.
  - destruct (run_sql sql params (db w)) as [[r d']|e]; cbn [db in_use trace pred].
    + rewrite <- !app_assoc. reflexivity.
    + rewrite <- app_assoc. reflexivity.
Qed.

Lemma respond_run s j w :
  respond s j w =
  (Ok {| status := s; json := j |},
   set_world (db w) (in_use w) [EvResponse {| status := s; json := j |}] w).
Proof. reflexivity. Qed.

Lemma try_catch_respond s j h w :
  try_catch (respond s j) h w = respond s j w.
Proof. reflexivity. Qed.

Lemma set_world_twice d1 n1 e1 d2 n2 e2 w :
  set_world d2 n2 e2 (set_world d1 n1 e1 w) = set_world d2 n2 (e1 ++ e2) w.
Proof. unfold set_world. cbn [trace]. rewrite app_assoc. reflexivity. Qed.

Lemma new_events_set_world d n evs w : new_events w (set_world d n evs w) = evs.
Proof. unfold new_events, set_world. cbn [trace]. apply drop_app_length. Qed.

(** The statements of the mutation handlers, as the store reads them. *)
Lemma run_sql_insert k n c d :
  run_sql "INSERT INTO customer (cust_code, cust_name, cust_city) VALUES (?, ?, ?)"
          [Some k; n; c] d
  = match customer d !! k with
    | Some _ => Throw "Duplicate entry for key PRIMARY"
    | None =>
        Ok (OkPacket 1,
            set_customer (<[k := {| row_name := n; row_city := c |}]> (customer d)) d)
    end.
Proof. reflexivity. Qed.

Lemma run_sql_update_both n c k d :
  run_sql "UPDATE customer SET cust_name=?, cust_city=? WHERE cust_code=?" [n; c; k] d
  = Ok (update_where k (fun _ => {| row_name := n; row_city := c |}) d).
Proof. reflexivity. Qed.

Lemma run_sql_patch_both n c k d :
  run_sql (patch_sql ["cust_name=?"; "cust_city=?"]) [n; c; k] d
  = Ok (update_where k (fun _ => {| row_name := n; row_city := c |}) d).
Proof. reflexivity. Qed.

Lemma run_sql_patch_name n k d :
  run_sql (patch_sql ["cust_name=?"]) [n; k] d
  = Ok (update_where k (fun r => {| row_name := n; row_city := row_city r |}) d).
Proof. reflexivity. Qed.

Lemma run_sql_patch_city c k d :
  run_sql (patch_sql ["cust_city=?"]) [c; k] d
  = Ok (update_where k (fun r => {| row_name := row_name r; row_city := c |}) d).
Proof. reflexivity. Qed.

Lemma run_sql_delete k d :
  run_sql "DELETE FROM customer WHERE cust_code=?" [Some k] d
  = match customer d !! k with
    | Some _ => Ok (OkPacket 1, set_customer (delete k (customer d)) d)
    | None => Ok (OkPacket 0, d)
    end.
Proof. reflexivity. Qed.
Lemma patch_validators_eq req :
  patch_validators req =
  ({| id := trim (id req);
      body := {| cust_code := cust_code (body req);
                 cust_name := trim <$> cust_name (body req);
                 cust_city := trim <$> cust_city (body req) |} |},
   id_errors (id req)).
Proof.
  destruct req as [i [c n t]]. unfold patch_validators, run_chain, id_errors.
  cbn [id body cust_code cust_name cust_city field optional items run_items run_item toString].
  destruct n, t; cbn [run_items run_item toString fmap option_fmap option_map];
    rewrite ?app_nil_r; reflexivity.
Qed.

Lemma put_validators_eq req :
  put_validators req =
  ({| id := trim (id req);
      body := {| cust_code := cust_code (body req);
                 cust_name := Some (trim (toString (cust_name (body req))));
                 cust_city := trim <$> cust_city (body req) |} |},
   id_errors (id req) ++ name_errors (cust_name (body req))).
Proof.
  destruct req as [i [c n t]]. unfold put_validators, run_chain, id_errors, name_errors.
  cbn [id body cust_code cust_name cust_city field optional items run_items run_item toString].
  destruct n, t; cbn [run_items run_item toString fmap option_fmap option_map];
    rewrite ?app_nil_r; reflexivity.
Qed.

Lemma delete_validators_eq req :
  delete_validators req = ({| id := trim (id req); body := body req |}, id_errors (id req)).
Proof.
  destruct req as [i b]. unfold delete_validators, run_chain, id_errors.
  cbn [id body field optional items run_items run_item toString].
  rewrite ?app_nil_r; reflexivity.
Qed.

Lemma titleCase_trim s : titleCase (trim s) = titleCase s.
Proof. unfold titleCase. rewrite trim_idempotent. reflexivity. Qed.

Lemma patch_customers_run env req w :
  patch_customers env req w =
  match id_errors (id req) with
  | _ :: _ => respond 400 (JErrors (id_errors (id req))) w
  | [] =>
    if negb (supplied (cust_name (body req)) || supplied (cust_city (body req)))
    then respond 400 (JError "No updatable fields") w
    else
      let h := fun e => respond 500 (JError e) in
      let sql := patch_sql (fst (patch_fields (body req))) in
      let params := snd (patch_fields (body req)) ++ [Some (trim (id req))] in
      match connect_error env with
      | Some e => h e w
      | None =>
        if (connectionLimit <=? in_use w)%nat
        then h "retrieve connection from pool timeout" w
        else
          let held := set_world (db w) (S (in_use w)) [EvAcquire; EvQuery sql params] w in
          match query_error env with
          | Some e => h e held
          | None =>
            match customer (db w) !! trim (id req) with
            | Some r =>
                respond 200 (JMessage "Customer updated")
                  (set_world
                     (set_customer (<[trim (id req) := patched_row (body req) r]> (customer (db w))) (db w))
                     (in_use w) [EvAcquire; EvQuery sql params; EvRelease] w)
            | None =>
                respond 404 (JError "Customer not found")
                  (set_world (db w) (in_use w) [EvAcquire; EvQuery sql params; EvRelease] w)
            end
          end
      end
  end.
Proof.
  unfold patch_customers. rewrite patch_validators_eq.
  destruct (id_errors (id req)) as [|e es]; [|reflexivity].
  unfold handleValidation, patch_handler.
  destruct req as [i [c n t]]. cbn [id body cust_code cust_name cust_city].
  destruct n as [n|], t as [t|];
    cbn [patch_fields fmap option_fmap option_map cust_name cust_city app length Nat.eqb supplied orb negb fst snd];
    [ | | | reflexivity ].
  all: rewrite ?titleCase_trim, session_run; cbn zeta.
  all: destruct (connect_error env); [reflexivity|].
  all: destruct (connectionLimit <=? in_use w)%nat; [reflexivity|].
  all: destruct (query_error env); [reflexivity|].
  - rewrite run_sql_patch_both. unfold update_where, patched_row.
    cbn [cust_name cust_city].
    destruct (customer (db w) !! trim i); reflexivity.
  - rewrite run_sql_patch_name. unfold update_where, patched_row.
    cbn [cust_name cust_city].
    destruct (customer (db w) !! trim i); reflexivity.
  - rewrite run_sql_patch_city. unfold update_where, patched_row.
    cbn [cust_name cust_city].
    destruct (customer (db w) !! trim i); reflexivity.
Qed.

Lemma put_customers_run env req w :
  put_customers env req w =
  match id_errors (id req) ++ name_errors (cust_name (body req)) with
  | _ :: _ =>
      respond 400 (JErrors (id_errors (id req) ++ name_errors (cust_name (body req)))) w
  | [] =>
      let h := fun e => respond 500 (JError e) in
      let name := Some (titleCase (toString (cust_name (body req)))) in
      let city := normalised_or_null trim (cust_city (body req)) in
      let sql := "UPDATE customer SET cust_name=?, cust_city=? WHERE cust_code=?" in
      let params := [name; city; Some (trim (id req))] in
      match connect_error env with
      | Some e => h e w
      | None =>
        if (connectionLimit <=? in_use w)%nat
        then h "retrieve connection from pool timeout" w
        else
          let held := set_world (db w) (S (in_use w)) [EvAcquire; EvQuery sql params] w in
          match query_error env with
          | Some e => h e held
          | None =>
            match customer (db w) !! trim (id req) with
            | Some r =>
                respond 200 (JMessage "Customer replaced")
                  (set_world
                     (set_customer
                        (<[trim (id req) := {| row_name := name; row_city := city |}]>
                           (customer (db w))) (db w))
                     (in_use w) [EvAcquire; EvQuery sql params; EvRelease] w)
            | None =>
                respond 404 (JError "Customer not found")
                  (set_world (db w) (in_use w) [EvAcquire; EvQuery sql params; EvRelease] w)
            end
          end
      end
  end.
Proof.
  unfold put_customers. rewrite put_validators_eq.
  destruct (id_errors (id req) ++ name_errors (cust_name (body req))) as [|e es];
    [|reflexivity].
  unfold handleValidation, put_handler.
  destruct req as [i [c n t]]. cbn [id body cust_code cust_name cust_city].
  rewrite session_run; cbn zeta.
  unfold titleCase_arg, normalised_or_null, truthy. rewrite titleCase_trim.
  destruct (connect_error env); [reflexivity|].
  destruct (connectionLimit <=? in_use w)%nat; [reflexivity|].
  destruct t as [t|]; cbn [fmap option_fmap option_map negb];
    [rewrite titleCase_trim; destruct (String.length (trim t) =? 0)%nat; cbn [negb]|].
  all: destruct (query_error env); [reflexivity|].
  all: rewrite run_sql_update_both; unfold update_where.
  all: destruct (customer (db w) !! trim i); reflexivity.
Qed.

Lemma delete_customers_run env req w :
  delete_customers env req w =
  match id_errors (id req) with
  | _ :: _ => respond 400 (JErrors (id_errors (id req))) w
  | [] =>
      let h := fun e => respond 500 (JError e) in
      let sql := "DELETE FROM customer WHERE cust_code=?" in
      let params := [Some (trim (id req))] in
      match connect_error env with
      | Some e => h e w
      | None =>
        if (connectionLimit <=? in_use w)%nat
        then h "retrieve connection from pool timeout" w
        else
          let held := set_world (db w) (S (in_use w)) [EvAcquire; EvQuery sql params] w in
          match query_error env with
          | Some e => h e held
          | None =>
            match customer (db w) !! trim (id req) with
            | Some r =>
                respond 200 (JMessage "Customer deleted")
                  (set_world
                     (set_customer (delete (trim (id req)) (customer (db w))) (db w))
                     (in_use w) [EvAcquire; EvQuery sql params; EvRelease] w)
            | None =>
                respond 404 (JError "Customer not found")
                  (set_world (db w) (in_use w) [EvAcquire; EvQuery sql params; EvRelease] w)
            end
          end
      end
  end.
Proof.
  unfold delete_customers. rewrite delete_validators_eq.
  destruct (id_errors (id req)) as [|e es]; [|reflexivity].
  unfold handleValidation, delete_handler. cbn [id body].
  rewrite session_run; cbn zeta.
  destruct (connect_error env); [reflexivity|].
  destruct (connectionLimit <=? in_use w)%nat; [reflexivity|].
  destruct (query_error env); [reflexivity|].
  rewrite run_sql_delete.
  destruct (customer (db w) !! trim (id req)); reflexivity.
Qed.

Lemma post_validators_eq req :
  post_validators req =
  ({| id := id req;
      body := {| cust_code := Some (trim (toString (cust_code (body req))));
                 cust_name := Some (trim (toString (cust_name (body req))));
                 cust_city := (fun c => escape (trim c)) <$> cust_city (body req) |} |},
   post_errors (body req)).
Proof.
  destruct req as [i [c n t]]. unfold post_validators, run_chain, post_errors, required_errors.
  cbn [id body cust_code cust_name cust_city field optional items run_items run_item toString].
  destruct c, n, t; cbn [run_items run_item toString fmap option_fmap option_map app];
    rewrite ?app_nil_r; reflexivity.
Qed.

Lemma post_customers_run env req w :
  post_customers env req w =
  match post_errors (body req) with
  | _ :: _ => respond 400 (JErrors (post_errors (body req))) w
  | [] =>
      let h := fun e => respond 500 (JError e) in
      let p := post_payload (body req) in
      let sql := "INSERT INTO customer (cust_code, cust_name, cust_city) VALUES (?, ?, ?)" in
      let params := [Some (payload_code p); Some (payload_name p); payload_city p] in
      match connect_error env with
      | Some e => h e w
      | None =>
        if (connectionLimit <=? in_use w)%nat
        then h "retrieve connection from pool timeout" w
        else
          let held := set_world (db w) (S (in_use w)) [EvAcquire; EvQuery sql params] w in
          match query_error env with
          | Some e => h e held
          | None =>
            match customer (db w) !! payload_code p with
            | Some _ => h "Duplicate entry for key PRIMARY" held
            | None =>
                respond 201 (JCreated "Customer created" p)
                  (set_world
                     (set_customer
                        (<[payload_code p := {| row_name := Some (payload_name p);
                                                row_city := payload_city p |}]>
                           (customer (db w))) (db w))
                     (in_use w) [EvAcquire; EvQuery sql params; EvRelease] w)
            end
          end
      end
  end.
Proof.
  unfold post_customers. rewrite post_validators_eq.
  destruct (post_errors (body req)) as [|e es]; [|reflexivity].
  unfold handleValidation, post_handler.
  destruct req as [i [c n t]].
  cbn [id body cust_code cust_name cust_city payload_code payload_name payload_city].
  rewrite session_run; cbn zeta.
  unfold post_payload, titleCase_arg, normalised_or_null, truthy.
  cbn [cust_code cust_name cust_city payload_code payload_name payload_city].
  rewrite titleCase_trim, trim_idempotent.
  destruct (connect_error env); [reflexivity|].
  destruct (connectionLimit <=? in_use w)%nat; [reflexivity|].
  destruct t as [t|]; cbn [fmap option_fmap option_map negb];
    [destruct (String.length (escape (trim t)) =? 0)%nat; cbn [negb]|].
  all: destruct (query_error env); [reflexivity|].
  all: rewrite run_sql_insert.
  all: destruct (customer (db w) !! trim (toString c)); reflexivity.
Qed.

Ltac finish_run :=
  rewrite ?respond_run, ?set_world_twice; cbn [fst snd];
  rewrite ?new_events_set_world; cbn [db in_use set_world app].

(** ** PATCH without fields *)

(** With a parsed body that supplies neither [cust_name] nor [cust_city],
    a PATCH /customers/{id} is answered 400 and never reaches the store:
    whatever the environment and the world, the store and the pool are as
    before, and the only effect is the response itself (no connection is
    acquired, no statement is sent). *)
Theorem patch_without_fields_is_400 env req w :
  cust_name (body req) = None ->
  cust_city (body req) = None ->
  exists r w',
    patch_customers env req w = (Ok r, w') /\
    status r = 400 /\
    db w' = db w /\ in_use w' = in_use w /\
    new_events w w' = [EvResponse r].
Proof.
  intros Hn Hc. rewrite patch_customers_run, Hn, Hc.
  destruct (id_errors (id req)); cbn [supplied orb negb];
    rewrite respond_run; do 2 eexists; (split; [reflexivity|]);
    rewrite new_events_set_world; repeat split.
Qed.

Lemma patch_without_fields_is_400_witness :
  exists r w',
    patch_customers no_faults (mk_req "C1" None None None) (fresh db_jane) = (Ok r, w') /\
    status r = 400 /\
    db w' = db (fresh db_jane) /\ in_use w' = in_use (fresh db_jane) /\
    new_events (fresh db_jane) w' = [EvResponse r].
Proof.
  apply (patch_without_fields_is_400 no_faults (mk_req "C1" None None None) (fresh db_jane));
    reflexivity.
Defined.

(** On a request that carries a body, [patch_route] is the route as
    modelled on [Request]. *)
Lemma patch_route_with_body env i b :
  patch_route env {| path_id := i; json_body := Some b |}
  = patch_customers env {| id := i; body := b |}.
Proof. reflexivity. Qed.

(** What PATCH does with no body at all: 400 on a blank id, otherwise the
    500 of the failed read of [req.body.cust_name]; the store is not
    reached either way. *)
Lemma patch_route_without_body env i w :
  patch_route env {| path_id := i; json_body := None |} w
  = respond (if (String.length (trim i) =? 0)%nat then 400 else 500)
            (if (String.length (trim i) =? 0)%nat
             then JErrors (id_errors i)
             else JError "Cannot read properties of undefined (reading 'cust_name')")
            w.
Proof.
  unfold patch_route. rewrite patch_validators_eq. cbn [id json_body path_id].
  unfold id_errors. destruct (String.length (trim i) =? 0)%nat; reflexivity.
Qed.

(** Whether a body was parsed or not, a PATCH that supplies neither field
    never reaches the store: the response is its only effect.  It is
    answered 400, except that with no body and a non-blank id it is
    answered 500. *)
Lemma patch_without_fields_never_reaches_store env r w :
  match json_body r with
  | Some b => cust_name b = None /\ cust_city b = None
  | None => True
  end ->
  exists resp,
    patch_route env r w
    = (Ok resp, set_world (db w) (in_use w) [EvResponse resp] w) /\
    (status resp = 400 \/
     (json_body r = None /\ trim (path_id r) <> "" /\ status resp = 500)).
Proof.
  destruct r as [i [b|]]; cbn [json_body path_id].
  - intros [Hn Hc]. rewrite patch_route_with_body, patch_customers_run.
    cbn [id body]. rewrite Hn, Hc.
    destruct (id_errors i); cbn [supplied orb negb]; rewrite respond_run;
      eexists; (split; [reflexivity|]); left; reflexivity.
  - intros _. rewrite patch_route_without_body, respond_run.
    eexists. split; [reflexivity|]. cbn [status].
    destruct (trim i); cbn [String.length Nat.eqb]; [left; reflexivity|].
    right. repeat split. discriminate.
Qed.


(** ** C2 *)

Lemma lookup_set_customer_insert k0 v t d k :
  customer (set_customer (<[k0 := v]> t) d) !! k =
  if decide (k0 = k) then Some v else t !! k.
Proof.
  cbn [customer set_customer]. rewrite lookup_insert. reflexivity.
Qed.

(** C2.  A partial update writes exactly the supplied fields.  For every
    PATCH request in every environment and world: (1) a statement it sends
    names the column [cust_name] exactly when the body supplies
    [cust_name], and the column [cust_city] exactly when the body supplies
    [cust_city]; (2) every stored row is still stored afterwards, with its
    [cust_name] unchanged when the body omits [cust_name] and its
    [cust_city] unchanged when the body omits [cust_city], and unchanged
    altogether when it is not the addressed row -- so a body holding only
    [cust_city] leaves every [cust_name] as it was. *)
Theorem patch_updates_exactly_supplied_fields env req w :
  let w' := snd (patch_customers env req w) in
  (forall sql params,
      In (EvQuery sql params) (new_events w w') ->
      includes "cust_name" sql = supplied (cust_name (body req)) /\
      includes "cust_city" sql = supplied (cust_city (body req)))
  /\
  (forall k r,
      customer (db w) !! k = Some r ->
      exists r',
        customer (db w') !! k = Some r' /\
        (cust_name (body req) = None -> row_name r' = row_name r) /\
        (cust_city (body req) = None -> row_city r' = row_city r) /\
        (k <> trim (id req) -> r' = r)).
Proof.
  cbn zeta. rewrite patch_customers_run.
  assert (Q : forall sql params evs,
             In (EvQuery sql params)
                ([EvAcquire;
                  EvQuery (patch_sql (fst (patch_fields (body req))))
                          (snd (patch_fields (body req)) ++ [Some (trim (id req))])] ++ evs) ->
             (forall e, In e evs -> forall s p, e <> EvQuery s p) ->
             supplied (cust_name (body req)) || supplied (cust_city (body req)) = true ->
             includes "cust_name" sql = supplied (cust_name (body req)) /\
             includes "cust_city" sql = supplied (cust_city (body req))).
  { intros sql params evs HIn Hevs Hs.
    cbn [app In] in HIn. destruct HIn as [H|[H|H]].
    - discriminate H.
    - injection H as <- _. unfold patch_fields.
      destruct (cust_name (body req)), (cust_city (body req));
        try discriminate Hs; split; reflexivity.
    - exfalso. exact (Hevs _ H sql params eq_refl). }
  assert (F : forall k r, customer (db w) !! k = Some r ->
             exists r', customer (db w) !! k = Some r' /\
               (cust_name (body req) = None -> row_name r' = row_name r) /\
               (cust_city (body req) = None -> row_city r' = row_city r) /\
               (k <> trim (id req) -> r' = r)).
  { intros k r H. exists r. auto. }
  destruct (id_errors (id req)) as [|e0 es].
  2: { finish_run. split; [|exact F]. intros sql params [H|[]]. discriminate H. }
  destruct (supplied (cust_name (body req)) || supplied (cust_city (body req))) eqn:S;
    cbn [negb].
  2: { finish_run. split; [|exact F]. intros sql params [H|[]]. discriminate H. }
  cbn zeta.
  destruct (connect_error env).
  { finish_run. split; [|exact F]. intros sql params [H|[]]. discriminate H. }
  destruct (connectionLimit <=? in_use w)%nat.
  { finish_run. split; [|exact F]. intros sql params [H|[]]. discriminate H. }
  destruct (query_error env).
  { finish_run. split; [|exact F]. intros sql params H.
    apply (Q sql params _ H); [|reflexivity].
    intros e [<-|[]] s1 p1. discriminate. }
  destruct (customer (db w) !! trim (id req)) as [r0|] eqn:L.
  - finish_run. split.
    + intros sql params H. apply (Q sql params _ H); [|reflexivity].
      intros e [<-|[<-|[]]] s1 p1; discriminate.
    + intros k r H. rewrite lookup_set_customer_insert.
      destruct (decide (trim (id req) = k)) as [<-|_].
      * rewrite L in H. injection H as <-.
        exists (patched_row (body req) r0). unfold patched_row. cbn [row_name row_city].
        split; [reflexivity|]. split; [intros ->; reflexivity|].
        split; [intros ->; reflexivity | congruence].
      * exists r. auto.
  - finish_run. split; [|exact F].
    intros sql params H. apply (Q sql params _ H); [|reflexivity].
    intros e [<-|[<-|[]]] s1 p1; discriminate.
Qed.

Lemma patch_city_only_witness :
  exists r',
    customer (db (snd (patch_customers no_faults (mk_req "C1" None None (Some "boston"))
                                       (fresh db_jane)))) !! "C1" = Some r' /\
    row_name r' = Some "Jane Doe" /\ row_city r' = Some "Boston".
Proof.
  destruct (patch_updates_exactly_supplied_fields
              no_faults (mk_req "C1" None None (Some "boston")) (fresh db_jane))
    as [_ F].
  destruct (F "C1" {| row_name := Some "Jane Doe"; row_city := Some "New York" |} eq_refl)
    as [r' [H1 [H2 _]]].
  exists r'. split; [exact H1|]. split; [exact (H2 eq_refl)|].
  vm_compute in H1. injection H1 as <-. reflexivity.
Defined.

(** ** C3 *)

Lemma accepted_replace req :
  accepted Replace req = true ->
  id_errors (id req) ++ name_errors (cust_name (body req)) = [].
Proof.
  unfold accepted. rewrite put_validators_eq. cbn [snd].
  destruct (id_errors (id req) ++ name_errors (cust_name (body req)));
    [reflexivity | discriminate].
Qed.

Lemma pool_has_room w :
  (in_use w < connectionLimit)%nat -> (connectionLimit <=? in_use w)%nat = false.
Proof. intros H. apply Nat.leb_gt, H. Qed.

(** C3.  A replace that passes validation (so it supplies a non-blank
    [cust_name]) and omits [cust_city], addressed at a stored row while the
    store is reachable, is answered 200 and leaves the row with the
    normalised name and a null [cust_city], whatever city it held. *)
Theorem put_without_city_clears_city env req w r :
  connect_error env = None ->
  query_error env = None ->
  (in_use w < connectionLimit)%nat ->
  accepted Replace req = true ->
  cust_city (body req) = None ->
  customer (db w) !! trim (id req) = Some r ->
  exists resp w',
    put_customers env req w = (Ok resp, w') /\
    status resp = 200 /\
    customer (db w') !! trim (id req) =
      Some {| row_name := Some (titleCase (toString (cust_name (body req))));
              row_city := None |}.
Proof.
  intros Hc Hq Hp Ha Hcity Hrow.
  rewrite put_customers_run, (accepted_replace req Ha), Hc, (pool_has_room w Hp), Hq.
  cbn zeta. rewrite Hrow, Hcity. cbn [normalised_or_null].
  rewrite respond_run. do 2 eexists. split; [reflexivity|]. split; [reflexivity|].
  cbn [db set_world]. rewrite lookup_set_customer_insert.
  destruct (decide (trim (id req) = trim (id req))); [reflexivity | congruence].
Qed.

Lemma put_without_city_clears_city_witness :
  exists resp w',
    put_customers no_faults (mk_req "C1" None (Some "jane") None) (fresh db_jane)
      = (Ok resp, w') /\
    status resp = 200 /\
    customer (db w') !! "C1" = Some {| row_name := Some "Jane"; row_city := None |}.
Proof.
  apply (put_without_city_clears_city
           no_faults (mk_req "C1" None (Some "jane") None) (fresh db_jane)
           {| row_name := Some "Jane Doe"; row_city := Some "New York" |});
    first [reflexivity | vm_compute; lia].
Defined.

(** ** C4 *)

Lemma accepted_delete req :
  accepted Delete req = true -> id_errors (id req) = [].
Proof.
  unfold accepted. rewrite delete_validators_eq. cbn [snd].
  destruct (id_errors (id req)); [reflexivity | discriminate].
Qed.

Lemma accepted_partial_update req :
  accepted PartialUpdate req = true ->
  id_errors (id req) = [] /\
  supplied (cust_name (body req)) || supplied (cust_city (body req)) = true.
Proof.
  unfold accepted. rewrite patch_validators_eq. cbn [fst snd body].
  intros H. apply andb_true_iff in H as [H1 H2]. split.
  - destruct (id_errors (id req)); [reflexivity | discriminate].
  - unfold patch_fields in H2. cbn [cust_name cust_city] in H2.
    destruct (cust_name (body req)), (cust_city (body req));
      first [reflexivity | discriminate H2].
Qed.

(** C4 (amended).  A mutation (partial update, replace or delete) that gets
    past its route's own checks -- the validation chains report nothing,
    and a partial update supplies at least one field -- and is addressed,
    while the store is reachable, at a code under which no row is stored,
    is answered 404 and leaves the store as it was. *)
Theorem mutation_of_missing_code_is_404 env m req w :
  connect_error env = None ->
  query_error env = None ->
  (in_use w < connectionLimit)%nat ->
  accepted m req = true ->
  customer (db w) !! trim (id req) = None ->
  exists resp w',
    mutation_route env m req w = (Ok resp, w') /\
    status resp = 404 /\
    db w' = db w.
Proof.
  intros Hc Hq Hp Ha Hrow. destruct m; cbn [mutation_route].
  - destruct (accepted_partial_update req Ha) as [Hid Hs].
    rewrite patch_customers_run, Hid, Hs, Hc, (pool_has_room w Hp), Hq.
    cbn [negb]. cbn zeta. rewrite Hrow, respond_run.
    do 2 eexists. repeat split.
  - rewrite put_customers_run, (accepted_replace req Ha), Hc, (pool_has_room w Hp), Hq.
    cbn zeta. rewrite Hrow, respond_run.
    do 2 eexists. repeat split.
  - rewrite delete_customers_run, (accepted_delete req Ha), Hc, (pool_has_room w Hp), Hq.
    cbn zeta. rewrite Hrow, respond_run.
    do 2 eexists. repeat split.
Qed.

Lemma mutation_of_missing_code_is_404_witness :
  exists resp w',
    mutation_route no_faults Replace (mk_req " ZZ " None (Some "jane") None) (fresh db_jane)
      = (Ok resp, w') /\
    status resp = 404 /\
    db w' = db (fresh db_jane).
Proof.
  apply (mutation_of_missing_code_is_404
           no_faults Replace (mk_req " ZZ " None (Some "jane") None) (fresh db_jane));
    first [reflexivity | vm_compute; lia].
Defined.

(** The property as worded fails: a partial update with an empty body, sent to a
    code under which nothing is stored, is answered 400, not 404. *)
Lemma patch_without_fields_on_missing_code :
  ~ (forall (m : Mutation) (req : Request) (w : World),
        customer (db w) !! trim (id req) = None ->
        exists resp w',
          mutation_route no_faults m req w = (Ok resp, w') /\
          status resp = 404 /\
          db w' = db w).
Proof.
  intros H.
  destruct (H PartialUpdate (mk_req "ZZ" None None None) (fresh db_jane) eq_refl)
    as [resp [w' [E [S _]]]].
  vm_compute in E. injection E as <- _. discriminate S.
Qed.

(** ** C10 *)

Lemma titleCase_blank c : trim c = "" -> titleCase c = "".
Proof. intros H. unfold titleCase. rewrite H. reflexivity. Qed.

(** C10.  The three mutations disagree on an empty city.  Let the store be
    reachable and let [c] be empty (or trim to the empty string).  Each
    route is taken on its own request and world, under its own validation
    only: a create whose [cust_city] is [c], on a free code, stores a null
    [cust_city]; a replace whose [cust_city] is [c], on a stored row, sets
    [cust_city] to null; a partial update whose [cust_city] is [c], on a
    stored row, sets [cust_city] to the empty string. *)
Theorem empty_city_null_or_empty env c :
  connect_error env = None ->
  query_error env = None ->
  trim c = "" ->
  (forall req w,
      (in_use w < connectionLimit)%nat ->
      cust_city (body req) = Some c ->
      no_errors (snd (post_validators req)) = true ->
      customer (db w) !! trim (toString (cust_code (body req))) = None ->
      row_city <$> customer (db (snd (post_customers env req w)))
                     !! trim (toString (cust_code (body req))) = Some None)
  /\
  (forall req w r,
      (in_use w < connectionLimit)%nat ->
      cust_city (body req) = Some c ->
      accepted Replace req = true ->
      customer (db w) !! trim (id req) = Some r ->
      row_city <$> customer (db (snd (put_customers env req w))) !! trim (id req)
      = Some None)
  /\
  (forall req w r,
      (in_use w < connectionLimit)%nat ->
      cust_city (body req) = Some c ->
      accepted PartialUpdate req = true ->
      customer (db w) !! trim (id req) = Some r ->
      row_city <$> customer (db (snd (patch_customers env req w))) !! trim (id req)
      = Some (Some "")).
Proof.
  intros Hc Hq Hblank. split; [|split].
  - intros req w Hp Hcity Hpost Hfree.
    rewrite post_validators_eq in Hpost. cbn [snd] in Hpost.
    rewrite post_customers_run, Hc, (pool_has_room w Hp), Hq.
    destruct (post_errors (body req)); [|discriminate Hpost].
    cbn zeta. unfold post_payload. cbn [payload_code payload_city].
    rewrite Hfree, Hcity. cbn [normalised_or_null]. rewrite Hblank.
    cbn [escape replace_char String.length Nat.eqb].
    rewrite respond_run. cbn [snd db set_world].
    rewrite lookup_set_customer_insert.
    destruct (decide (trim (toString (cust_code (body req))) =
                      trim (toString (cust_code (body req))))); [reflexivity | congruence].
  - intros req w r Hp Hcity Hput Hrow.
    rewrite put_customers_run, (accepted_replace req Hput), Hc, (pool_has_room w Hp), Hq.
    cbn zeta. rewrite Hrow, Hcity. cbn [normalised_or_null]. rewrite Hblank.
    cbn [String.length Nat.eqb].
    rewrite respond_run. cbn [snd db set_world].
    rewrite lookup_set_customer_insert.
    destruct (decide (trim (id req) = trim (id req))); [reflexivity | congruence].
  - intros req w r Hp Hcity Hpatch Hrow.
    destruct (accepted_partial_update req Hpatch) as [Hid Hs].
    rewrite patch_customers_run, Hid, Hs, Hc, (pool_has_room w Hp), Hq.
    cbn [negb]. cbn zeta. rewrite Hrow.
    rewrite respond_run. cbn [snd db set_world].
    rewrite lookup_set_customer_insert.
    destruct (decide (trim (id req) = trim (id req))); [|congruence].
    unfold patched_row. cbn [row_city fmap option_fmap option_map].
    rewrite Hcity, (titleCase_blank c Hblank). reflexivity.
Qed.

Lemma empty_city_null_or_empty_witness :
  row_city <$> customer (db (snd (post_customers no_faults
                                   (mk_req "" (Some "C2") (Some "john") (Some ""))
                                   (fresh empty_db)))) !! "C2" = Some None
  /\ row_city <$> customer (db (snd (put_customers no_faults
                                     (mk_req "C1" None (Some "jane") (Some ""))
                                     (fresh db_jane)))) !! "C1" = Some None
  /\ row_city <$> customer (db (snd (patch_customers no_faults
                                     (mk_req "C1" None None (Some ""))
                                     (fresh db_jane)))) !! "C1" = Some (Some "").
Proof.
  destruct (empty_city_null_or_empty no_faults "" eq_refl eq_refl eq_refl)
    as [Hpost [Hput Hpatch]].
  split; [|split].
  - apply (Hpost (mk_req "" (Some "C2") (Some "john") (Some "")) (fresh empty_db));
      first [reflexivity | vm_compute; lia].
  - apply (Hput (mk_req "C1" None (Some "jane") (Some "")) (fresh db_jane)
             {| row_name := Some "Jane Doe"; row_city := Some "New York" |});
      first [reflexivity | vm_compute; lia].
  - apply (Hpatch (mk_req "C1" None None (Some "")) (fresh db_jane)
             {| row_name := Some "Jane Doe"; row_city := Some "New York" |});
      first [reflexivity | vm_compute; lia].
Defined.

(** ** C8 *)

(** C8 (the code departs from the stated property on partial update).  A PATCH whose
    [cust_name] is blank passes validation -- the chain of that route trims
    the field and checks nothing -- and the stored name becomes the empty
    string, answered 200. *)
Theorem patch_accepts_blank_name :
  let out := patch_customers no_faults (mk_req "C1" None (Some "   ") None)
                             (fresh db_jane) in
  fst out = Ok {| status := 200; json := JMessage "Customer updated" |} /\
  customer (db (snd out)) !! "C1"
    = Some {| row_name := Some ""; row_city := Some "New York" |} /\
  new_events (fresh db_jane) (snd out)
    = [EvAcquire;
       EvQuery "UPDATE customer SET cust_name=? WHERE cust_code=?" [Some ""; Some "C1"];
       EvRelease;
       EvResponse {| status := 200; json := JMessage "Customer updated" |}].
Proof. vm_compute. repeat split. Qed.

(** ** C9 *)

(** C9 (the code departs from the stated property on replace and partial
    update).
    Only the create route escapes [cust_city]; on PUT and PATCH a city
    holding markup reaches the statement and the row with its angle
    brackets and slash intact. *)
Theorem put_and_patch_store_markup :
  let req := mk_req "C1" None (Some "jane") (Some " <b>rome</b> ") in
  customer (db (snd (put_customers no_faults req (fresh db_jane)))) !! "C1"
    = Some {| row_name := Some "Jane"; row_city := Some "<B>Rome</B>" |} /\
  customer (db (snd (patch_customers no_faults req (fresh db_jane)))) !! "C1"
    = Some {| row_name := Some "Jane"; row_city := Some "<B>Rome</B>" |} /\
  new_events (fresh empty_db)
             (snd (post_customers no_faults
                     (mk_req "" (Some "C1") (Some "jane") (Some " <b>rome</b> "))
                     (fresh empty_db)))
    = [EvAcquire;
       EvQuery "INSERT INTO customer (cust_code, cust_name, cust_city) VALUES (?, ?, ?)"
               [Some "C1"; Some "Jane"; Some "&Lt;B&Gt;Rome&Lt;&#X2f;B&Gt;"];
       EvRelease;
       EvResponse
         {| status := 201;
            json := JCreated "Customer created"
                      {| payload_code := "C1"; payload_name := "Jane";
                         payload_city := Some "&Lt;B&Gt;Rome&Lt;&#X2f;B&Gt;" |} |}].
Proof. vm_compute. repeat split. Qed.

(** ** C1 *)

(** C1 (the code departs from the stated property when the statement
    throws).
    [c.release()] stands after the awaited [c.query(...)] inside the [try]
    and there is no [finally]: creating a customer under a code that is
    already stored makes the INSERT throw, the [catch] answers 500, and the
    connection taken from the pool is never given back. *)
Theorem post_duplicate_code_keeps_connection :
  let w := fresh db_jane in
  let out := post_customers no_faults (mk_req "" (Some "C1") (Some "john") None) w in
  fst out = Ok {| status := 500; json := JError "Duplicate entry for key PRIMARY" |} /\
  in_use (snd out) = 1 /\
  new_events w (snd out)
    = [EvAcquire;
       EvQuery "INSERT INTO customer (cust_code, cust_name, cust_city) VALUES (?, ?, ?)"
               [Some "C1"; Some "John"; None];
       EvResponse {| status := 500; json := JError "Duplicate entry for key PRIMARY" |}] /\
  released_before_response 0 (new_events w (snd out)) = false.
Proof. vm_compute. repeat split. Qed.

(** ** The resource discipline, endpoint by endpoint *)

Lemma run_sql_select_one d :
  run_sql "SELECT 1 AS ok" [] d = Ok (ResultRows [RowOk 1], d).
Proof. reflexivity. Qed.

Lemma run_sql_select_customers d :
  exists rows, run_sql "SELECT * FROM customer LIMIT 50" [] d = Ok (ResultRows rows, d).
Proof. eexists. reflexivity. Qed.

Lemma run_sql_select_orders d :
  exists rows, run_sql "SELECT * FROM orders LIMIT 50" [] d = Ok (ResultRows rows, d).
Proof. eexists. reflexivity. Qed.

Lemma run_sql_select_foods d :
  exists rows, run_sql "SELECT * FROM foods LIMIT 50" [] d = Ok (ResultRows rows, d).
Proof. eexists. reflexivity. Qed.

Ltac without_store :=
  left; rewrite respond_run; eexists; reflexivity.

Ltac holding :=
  right; left; rewrite respond_run, set_world_twice;
  do 3 eexists; split; swap 1 2; [cbn [app]; reflexivity | reflexivity].

Ltac after_release :=
  right; right; rewrite ?try_catch_respond, respond_run, set_world_twice;
  do 4 eexists; split; swap 1 2; [cbn [app]; reflexivity | cbn [status]; lia].

Ltac session_cases env w :=
  destruct (connect_error env); [without_store|];
  destruct (connectionLimit <=? in_use w)%nat; [without_store|];
  destruct (query_error env); [holding|].

(** Every request on every endpoint ends in one of the three ways. *)
Lemma serve_outcome env ep req w :
  answered_without_store w (serve env ep req w) \/
  answered_holding w (serve env ep req w) \/
  answered_after_release w (serve env ep req w).
Proof.
  destruct ep; cbn [serve].
  - unfold get_health. rewrite session_run. cbn zeta. session_cases env w.
    rewrite run_sql_select_one. after_release.
  - unfold get_customers. rewrite session_run. cbn zeta. session_cases env w.
    destruct (run_sql_select_customers (db w)) as [rows ->]. after_release.
  - unfold get_orders. rewrite session_run. cbn zeta. session_cases env w.
    destruct (run_sql_select_orders (db w)) as [rows ->]. after_release.
  - unfold get_products. rewrite session_run. cbn zeta. session_cases env w.
    destruct (run_sql_select_foods (db w)) as [rows ->]. after_release.
  - rewrite post_customers_run.
    destruct (post_errors (body req)); [|without_store].
    cbn zeta. session_cases env w.
    destruct (customer (db w) !! payload_code (post_payload (body req)));
      [holding | after_release].
  - rewrite patch_customers_run.
    destruct (id_errors (id req)); [|without_store].
    destruct (negb (supplied (cust_name (body req)) || supplied (cust_city (body req))));
      [without_store|].
    cbn zeta. session_cases env w.
    destruct (customer (db w) !! trim (id req)); after_release.
  - rewrite put_customers_run.
    destruct (id_errors (id req) ++ name_errors (cust_name (body req))); [|without_store].
    cbn zeta. session_cases env w.
    destruct (customer (db w) !! trim (id req)); after_release.
  - rewrite delete_customers_run.
    destruct (id_errors (id req)); [|without_store].
    cbn zeta. session_cases env w.
    destruct (customer (db w) !! trim (id req)); after_release.
Qed.

(** On every endpoint, a request that is not answered 500 leaves the pool as
    it found it, and its effects keep the discipline: any statement ran on
    a checked-out connection and the connection was released before the
    response was sent. *)
Theorem connection_released_unless_500 env ep req w :
  exists r w',
    serve env ep req w = (Ok r, w') /\
    (status r <> 500 ->
     in_use w' = in_use w /\
     released_before_response 0 (new_events w w') = true).
Proof.
  destruct (serve_outcome env ep req w) as [[r E]|[[r [sql [ps [S E]]]]|[r [sql [ps [d' [S E]]]]]]];
    rewrite E; do 2 eexists; (split; [reflexivity|]); intros H;
    rewrite new_events_set_world; cbn [in_use set_world].
  - split; reflexivity.
  - contradiction.
  - split; reflexivity.
Qed.

(** On every endpoint, a request that took a connection and was answered 500
    ends with that connection still checked out: the response was sent
    without a release. *)
Theorem connection_kept_after_failed_statement env ep req w :
  exists r w',
    serve env ep req w = (Ok r, w') /\
    (In EvAcquire (new_events w w') -> status r = 500 ->
     in_use w' = S (in_use w) /\
     released_before_response 0 (new_events w w') = false).
Proof.
  destruct (serve_outcome env ep req w) as [[r E]|[[r [sql [ps [S E]]]]|[r [sql [ps [d' [S E]]]]]]];
    rewrite E; do 2 eexists; (split; [reflexivity|]); intros HA H;
    rewrite new_events_set_world in *; cbn [in_use set_world].
  - destruct HA as [HA|[]]. discriminate HA.
  - split; reflexivity.
  - contradiction.
Qed.

Lemma connection_kept_after_failed_statement_witness :
  exists r w',
    serve {| connect_error := None; query_error := Some "Table 'sample.orders' doesn't exist" |}
          GetOrders (mk_req "" None None None) (fresh empty_db) = (Ok r, w') /\
    status r = 500 /\ in_use w' = 1.
Proof.
  destruct (connection_kept_after_failed_statement
              {| connect_error := None; query_error := Some "Table 'sample.orders' doesn't exist" |}
              GetOrders (mk_req "" None None None) (fresh empty_db))
    as [r [w' [E K]]].
  exists r, w'. split; [exact E|].
  vm_compute in E. injection E as <- <-. split; reflexivity.
Defined.

(** ** Markup characters through the create chain *)

Lemma append_cons x (a b : string) : String x a +:+ b = String x (a +:+ b).
Proof. reflexivity. Qed.

Lemma has_markup_app a b : has_markup (a +:+ b) = has_markup a || has_markup b.
Proof.
  induction a as [|x a IH]; [reflexivity|].
  rewrite append_cons. cbn [has_markup]. rewrite IH, orb_assoc. reflexivity.
Qed.

Lemma string_app_assoc (a b c : string) : (a +:+ b) +:+ c = a +:+ (b +:+ c).
Proof.
  induction a as [|x a IH]; [reflexivity|].
  rewrite !append_cons, IH. reflexivity.
Qed.

Lemma replace_char_app c by_ a b :
  replace_char c by_ (a +:+ b) = replace_char c by_ a +:+ replace_char c by_ b.
Proof.
  induction a as [|x a IH]; [reflexivity|].
  rewrite append_cons. cbn [replace_char]. rewrite IH.
  destruct (Ascii.eqb x c); [rewrite string_app_assoc | rewrite append_cons]; reflexivity.
Qed.

Lemma escape_app a b : escape (a +:+ b) = escape a +:+ escape b.
Proof. unfold escape. rewrite !replace_char_app. reflexivity. Qed.

Lemma escape_one_clean x : has_markup (escape (String x "")) = false.
Proof. all_chars x; reflexivity. Qed.

Lemma has_markup_escape s : has_markup (escape s) = false.
Proof.
  induction s as [|x r IH]; [reflexivity|].
  change (String x r) with (String x "" +:+ r).
  rewrite escape_app, has_markup_app, escape_one_clean, IH. reflexivity.
Qed.

Lemma has_markup_trimStart s : has_markup s = false -> has_markup (trimStart s) = false.
Proof.
  induction s as [|c r IH]; [reflexivity|].
  intros H. cbn [trimStart]. destruct (isWhiteSpace c); [|exact H].
  apply IH. cbn [has_markup] in H. apply orb_false_iff in H. apply H.
Qed.

Lemma has_markup_trimEnd s : has_markup s = false -> has_markup (trimEnd s) = false.
Proof.
  induction s as [|c r IH]; [reflexivity|].
  intros H. cbn [has_markup] in H. apply orb_false_iff in H as [Hc Hr].
  cbn [trimEnd]. specialize (IH Hr).
  destruct (trimEnd r) as [|d r'].
  - destruct (isWhiteSpace c); [reflexivity|].
    cbn [has_markup]. rewrite Hc. reflexivity.
  - change (has_markup (String c (String d r')))
      with (is_markup_char c || has_markup (String d r')).
    rewrite Hc, IH. reflexivity.
Qed.

Lemma is_markup_char_toLowerCase c :
  is_markup_char (toLowerCase_char c) = is_markup_char c.
Proof. all_chars c; reflexivity. Qed.

Lemma is_markup_char_toUpperCase c :
  is_markup_char (toUpperCase_char c) = is_markup_char c.
Proof. all_chars c; reflexivity. Qed.

Lemma has_markup_toLowerCase s : has_markup (toLowerCase s) = has_markup s.
Proof.
  induction s as [|c r IH]; [reflexivity|].
  unfold toLowerCase in *. cbn [string_map has_markup].
  rewrite IH, is_markup_char_toLowerCase. reflexivity.
Qed.

Lemma has_markup_replace s : forall p, has_markup (replace_b_a_z p s) = has_markup s.
Proof.
  induction s as [|c r IH]; intros p; [reflexivity|].
  cbn [replace_b_a_z has_markup]. rewrite IH.
  destruct (matches_b_a_z p c); [rewrite is_markup_char_toUpperCase|]; reflexivity.
Qed.

Lemma has_markup_titleCase s : has_markup s = false -> has_markup (titleCase s) = false.
Proof.
  intros H. unfold titleCase, trim.
  rewrite has_markup_replace, has_markup_toLowerCase.
  apply has_markup_trimEnd, has_markup_trimStart, H.
Qed.

(** On create, whatever city the body holds, the value bound to the
    statement's third placeholder is the escaped, trimmed city in title
    case (or null), and it holds no quote, angle bracket, slash, backslash
    or backquote. *)
Theorem create_city_is_escaped env req w sql k n city :
  In (EvQuery sql [k; n; Some city]) (new_events w (snd (post_customers env req w))) ->
  (exists c, cust_city (body req) = Some c /\ city = titleCase (escape (trim c))) /\
  has_markup city = false.
Proof.
  rewrite post_customers_run.
  assert (Q : forall evs,
             In (EvQuery sql [k; n; Some city])
                ([EvAcquire;
                  EvQuery "INSERT INTO customer (cust_code, cust_name, cust_city) VALUES (?, ?, ?)"
                          [Some (payload_code (post_payload (body req)));
                           Some (payload_name (post_payload (body req)));
                           payload_city (post_payload (body req))]] ++ evs) ->
             (forall e, In e evs -> forall s p, e <> EvQuery s p) ->
             (exists c, cust_city (body req) = Some c /\ city = titleCase (escape (trim c))) /\
             has_markup city = false).
  { intros evs HIn Hevs. cbn [app In] in HIn. destruct HIn as [H|[H|H]].
    - discriminate H.
    - injection H as _ _ _ Hcity. unfold post_payload, normalised_or_null in Hcity.
      cbn [payload_city] in Hcity.
      destruct (cust_city (body req)) as [c|]; [|discriminate Hcity].
      destruct (String.length (escape (trim c)) =? 0)%nat; [discriminate Hcity|].
      injection Hcity as <-. split.
      + exists c. split; reflexivity.
      + apply has_markup_titleCase, has_markup_escape.
    - exfalso. exact (Hevs _ H _ _ eq_refl). }
  destruct (post_errors (body req)).
  2: { finish_run. intros [H|[]]. discriminate H. }
  cbn zeta.
  destruct (connect_error env).
  { finish_run. intros [H|[]]. discriminate H. }
  destruct (connectionLimit <=? in_use w)%nat.
  { finish_run. intros [H|[]]. discriminate H. }
  destruct (query_error env).
  { finish_run. intros H. apply (Q _ H). intros e [<-|[]] s1 p1. discriminate. }
  destruct (customer (db w) !! payload_code (post_payload (body req))).
  - finish_run. intros H. apply (Q _ H). intros e [<-|[]] s1 p1. discriminate.
  - finish_run. intros H. apply (Q _ H). intros e [<-|[<-|[]]] s1 p1; discriminate.
Qed.

Lemma create_city_is_escaped_witness :
  (exists c, Some " <b>rome</b> " = Some c /\
             "&Lt;B&Gt;Rome&Lt;&#X2f;B&Gt;" = titleCase (escape (trim c))) /\
  has_markup "&Lt;B&Gt;Rome&Lt;&#X2f;B&Gt;" = false.
Proof.
  apply (create_city_is_escaped
           no_faults (mk_req "" (Some "C1") (Some "jane") (Some " <b>rome</b> "))
           (fresh empty_db)
           "INSERT INTO customer (cust_code, cust_name, cust_city) VALUES (?, ?, ?)"
           (Some "C1") (Some "Jane") "&Lt;B&Gt;Rome&Lt;&#X2f;B&Gt;").
  vm_compute. right. left. reflexivity.
Defined.

(** ** Blank names on create and replace *)

(** On create and on replace a supplied [cust_name] that trims to the empty
    string is rejected by validation: the answer is 400 and the store is
    not reached (no connection, no statement). *)
Theorem blank_name_rejected_on_create_and_replace env req w n :
  cust_name (body req) = Some n ->
  trim n = "" ->
  (exists r, post_customers env req w
             = (Ok r, set_world (db w) (in_use w) [EvResponse r] w) /\ status r = 400) /\
  (exists r, put_customers env req w
             = (Ok r, set_world (db w) (in_use w) [EvResponse r] w) /\ status r = 400).
Proof.
  intros Hn Hblank. rewrite post_customers_run, put_customers_run.
  unfold post_errors.
  destruct (required_errors "cust_code" "cust_code required" (cust_code (body req)));
    destruct (id_errors (id req));
    unfold required_errors, name_errors; rewrite Hn; cbn [toString]; rewrite Hblank;
    cbn [String.length Nat.leb Nat.eqb app]; rewrite !respond_run;
    split; eexists; split; reflexivity.
Qed.

Lemma blank_name_rejected_witness :
  (exists r, post_customers no_faults (mk_req "C9" (Some "C9") (Some "  ") None) (fresh db_jane)
             = (Ok r, set_world db_jane 0 [EvResponse r] (fresh db_jane)) /\ status r = 400) /\
  (exists r, put_customers no_faults (mk_req "C9" (Some "C9") (Some "  ") None) (fresh db_jane)
             = (Ok r, set_world db_jane 0 [EvResponse r] (fresh db_jane)) /\ status r = 400).
Proof.
  apply (blank_name_rejected_on_create_and_replace
           no_faults (mk_req "C9" (Some "C9") (Some "  ") None) (fresh db_jane) "  ");
    reflexivity.
Defined.

(** ** The store under a mutation of a missing code *)

(** Whatever the request, the environment and the answer, a mutation
    addressed at a code under which no row is stored leaves the store as it
    was. *)
Theorem mutation_of_missing_code_keeps_store env m req w :
  customer (db w) !! trim (id req) = None ->
  db (snd (mutation_route env m req w)) = db w.
Proof.
  intros Hrow. destruct m; cbn [mutation_route].
  - rewrite patch_customers_run.
    destruct (id_errors (id req)); [|reflexivity].
    destruct (negb (supplied (cust_name (body req)) || supplied (cust_city (body req))));
      [reflexivity|].
    cbn zeta. rewrite Hrow.
    destruct (connect_error env); [reflexivity|].
    destruct (connectionLimit <=? in_use w)%nat; [reflexivity|].
    destruct (query_error env); reflexivity.
  - rewrite put_customers_run.
    destruct (id_errors (id req) ++ name_errors (cust_name (body req))); [|reflexivity].
    cbn zeta. rewrite Hrow.
    destruct (connect_error env); [reflexivity|].
    destruct (connectionLimit <=? in_use w)%nat; [reflexivity|].
    destruct (query_error env); reflexivity.
  - rewrite delete_customers_run.
    destruct (id_errors (id req)); [|reflexivity].
    cbn zeta. rewrite Hrow.
    destruct (connect_error env); [reflexivity|].
    destruct (connectionLimit <=? in_use w)%nat; [reflexivity|].
    destruct (query_error env); reflexivity.
Qed.

Lemma mutation_of_missing_code_keeps_store_witness :
  db (snd (mutation_route no_faults Delete (mk_req "ZZ" None None None) (fresh db_jane)))
  = db_jane.
Proof.
  apply (mutation_of_missing_code_keeps_store
           no_faults Delete (mk_req "ZZ" None None None) (fresh db_jane)).
  reflexivity.
Defined.

(** ** Create *)

(** A create that passes validation, under a free code and with the store
    reachable, is answered 201 with the normalised record -- trimmed code,
    title-cased name -- and that record is what is stored. *)
Theorem create_returns_normalised_record env req w :
  connect_error env = None ->
  query_error env = None ->
  (in_use w < connectionLimit)%nat ->
  no_errors (snd (post_validators req)) = true ->
  customer (db w) !! trim (toString (cust_code (body req))) = None ->
  exists w',
    post_customers env req w
      = (Ok {| status := 201;
               json := JCreated "Customer created" (post_payload (body req)) |}, w') /\
    payload_name (post_payload (body req)) = titleCase (toString (cust_name (body req))) /\
    customer (db w') !! trim (toString (cust_code (body req)))
      = Some {| row_name := Some (titleCase (toString (cust_name (body req))));
                row_city := payload_city (post_payload (body req)) |}.
Proof.
  intros Hc Hq Hp Hv Hfree.
  rewrite post_validators_eq in Hv. cbn [snd] in Hv.
  rewrite post_customers_run, Hc, (pool_has_room w Hp), Hq.
  destruct (post_errors (body req)); [|discriminate Hv].
  cbn zeta. unfold post_payload at 1. cbn [payload_code]. rewrite Hfree.
  rewrite respond_run. eexists. split; [reflexivity|]. split; [reflexivity|].
  cbn [db set_world]. rewrite lookup_set_customer_insert.
  unfold post_payload. cbn [payload_code payload_name payload_city].
  destruct (decide (trim (toString (cust_code (body req))) =
                    trim (toString (cust_code (body req))))); [reflexivity | congruence].
Qed.

Lemma create_example_witness :
  exists w',
    post_customers no_faults
      (mk_req "" (Some "c1") (Some "jane doe") (Some "new york")) (fresh empty_db)
    = (Ok {| status := 201;
             json := JCreated "Customer created"
                       {| payload_code := "c1"; payload_name := "Jane Doe";
                          payload_city := Some "New York" |} |}, w') /\
    "Jane Doe" = titleCase "jane doe" /\
    customer (db w') !! "c1"
      = Some {| row_name := Some "Jane Doe"; row_city := Some "New York" |}.
Proof.
  apply (create_returns_normalised_record
           no_faults (mk_req "" (Some "c1") (Some "jane doe") (Some "new york"))
           (fresh empty_db));
    first [reflexivity | vm_compute; lia].
Defined.

(** ** An exhausted pool *)

(** Five creates under a stored code leave all five connections checked
    out; the health check that follows cannot take one and answers 500
    although the store is reachable. *)
Example pool_exhausted_after_five_failures :
  let dup := post_customers no_faults (mk_req "" (Some "C1") (Some "john") None) in
  let w5 := snd (dup (snd (dup (snd (dup (snd (dup (snd (dup (fresh db_jane)))))))))) in
  in_use w5 = connectionLimit /\
  fst (get_health no_faults (mk_req "" None None None) w5)
    = Ok {| status := 500; json := JHealth "error" false |} /\
  fst (get_health no_faults (mk_req "" None None None) (fresh db_jane))
    = Ok {| status := 200; json := JHealth "ok" true |}.
Proof. vm_compute. repeat split. Qed.

(** ** Worked inputs of the normalisation helper *)

Example titleCase_jane_doe : titleCase "jane doe" = "Jane Doe".
Proof. reflexivity. Qed.

Example titleCase_inner_spaces : titleCase "  NEW   yORK " = "New   York".
Proof. reflexivity. Qed.

Example titleCase_punctuation : titleCase "jean-luc o'neil" = "Jean-Luc O'Neil".
Proof. reflexivity. Qed.

Example titleCase_reference_punctuation :
  titleCase_ref "jean-luc o'neil" = "Jean-luc O'neil".
Proof. reflexivity. Qed.

Example titleCase_digits_underscore : titleCase "3rd st_a" = "3rd St_a".
Proof. reflexivity. Qed.

Example titleCase_default_parameter : titleCase_arg None = "".
Proof. reflexivity. Qed.

Example escape_all_eight :
  escape "<a href='x'>T&J</a>" = "&lt;a href=&#x27;x&#x27;&gt;T&amp;J&lt;&#x2F;a&gt;".
Proof. reflexivity. Qed.

(** ** The effect of a request on the store and on the pool *)

Lemma run_sql_customers d :
  run_sql "SELECT * FROM customer LIMIT 50" [] d
  = Ok (ResultRows (limit50 (map (fun kc => RowCustomer kc.1 kc.2)
                                 (map_to_list (customer d)))), d).
Proof. reflexivity. Qed.

Lemma run_sql_orders d :
  run_sql "SELECT * FROM orders LIMIT 50" [] d
  = Ok (ResultRows (limit50 (map RowOther (orders d))), d).
Proof. reflexivity. Qed.

Lemma run_sql_foods d :
  run_sql "SELECT * FROM foods LIMIT 50" [] d
  = Ok (ResultRows (limit50 (map RowOther (foods d))), d).
Proof. reflexivity. Qed.

Lemma no_errors_nil (l : list FieldError) : no_errors l = true -> l = [].
Proof. destruct l; [reflexivity | discriminate]. Qed.

Lemma no_errors_cons (l : list FieldError) :
  no_errors l = false -> exists e es, l = e :: es.
Proof. destruct l as [|e es]; [discriminate | eauto]. Qed.

Lemma accepted_partial_update_iff req :
  accepted PartialUpdate req =
  no_errors (id_errors (id req)) &&
  (supplied (cust_name (body req)) || supplied (cust_city (body req))).
Proof.
  unfold accepted. rewrite patch_validators_eq. cbn [fst snd body].
  f_equal. unfold patch_fields. cbn [cust_name cust_city].
  destruct (cust_name (body req)), (cust_city (body req)); reflexivity.
Qed.

Lemma accepted_replace_iff req :
  accepted Replace req =
  no_errors (id_errors (id req) ++ name_errors (cust_name (body req))).
Proof. unfold accepted. rewrite put_validators_eq. reflexivity. Qed.

Lemma accepted_delete_iff req :
  accepted Delete req = no_errors (id_errors (id req)).
Proof. unfold accepted. rewrite delete_validators_eq. reflexivity. Qed.

Lemma validation_ok_post req :
  validation_ok PostCustomers req = no_errors (post_errors (body req)).
Proof. unfold validation_ok. rewrite post_validators_eq. reflexivity. Qed.

Ltac split_env env w :=
  unfold store_reachable;
  destruct (connect_error env);
  [ rewrite ?andb_false_r
  | destruct (query_error env);
    [ rewrite ?andb_false_r; destruct (connectionLimit <=? in_use w)%nat
    | rewrite (Nat.ltb_antisym connectionLimit (in_use w));
      destruct (connectionLimit <=? in_use w)%nat; cbn [negb]; rewrite ?andb_false_r, ?andb_true_r ] ].

(** What a request leaves in the store: the effect of its statement when
    the statement ran, the store as it was otherwise. *)
Lemma serve_store env ep req w :
  db (snd (serve env ep req w)) =
  if statement_runs env ep req w then effect ep req (db w) else db w.
Proof.
  unfold statement_runs.
  destruct ep; cbn [serve validation_ok effect andb].
  - unfold get_health. rewrite session_run, run_sql_select_one. cbn zeta.
    split_env env w; reflexivity.
  - unfold get_customers. rewrite session_run, run_sql_customers. cbn zeta.
    split_env env w; reflexivity.
  - unfold get_orders. rewrite session_run, run_sql_orders. cbn zeta.
    split_env env w; reflexivity.
  - unfold get_products. rewrite session_run, run_sql_foods. cbn zeta.
    split_env env w; reflexivity.
  - rewrite post_customers_run. fold (validation_ok PostCustomers req).
    rewrite validation_ok_post.
    destruct (post_errors (body req)); cbn [no_errors andb]; [|reflexivity].
    cbn zeta. split_env env w; try reflexivity.
    destruct (customer (db w) !! payload_code (post_payload (body req))); reflexivity.
  - rewrite patch_customers_run, accepted_partial_update_iff.
    destruct (id_errors (id req)); cbn [no_errors andb]; [|reflexivity].
    destruct (supplied (cust_name (body req)) || supplied (cust_city (body req)));
      cbn [negb andb]; [|reflexivity].
    cbn zeta. split_env env w; try reflexivity.
    destruct (customer (db w) !! trim (id req)); reflexivity.
  - rewrite put_customers_run, accepted_replace_iff.
    destruct (id_errors (id req) ++ name_errors (cust_name (body req)));
      cbn [no_errors andb]; [|reflexivity].
    cbn zeta. split_env env w; try reflexivity.
    destruct (customer (db w) !! trim (id req)); reflexivity.
  - rewrite delete_customers_run, accepted_delete_iff.
    destruct (id_errors (id req)); cbn [no_errors andb]; [|reflexivity].
    cbn zeta. split_env env w; try reflexivity.
    destruct (customer (db w) !! trim (id req)); reflexivity.
Qed.

Ltac open_endpoint :=
  cbn [serve];
  first
    [ unfold get_health; rewrite session_run, run_sql_select_one
    | unfold get_customers; rewrite session_run, run_sql_customers
    | unfold get_orders; rewrite session_run, run_sql_orders
    | unfold get_products; rewrite session_run, run_sql_foods
    | rewrite post_customers_run
    | rewrite patch_customers_run
    | rewrite put_customers_run
    | rewrite delete_customers_run ];
  cbn zeta.

(** Case analysis on everything a run lemma branches on. *)
Ltac branch :=
  repeat match goal with
         | |- context [match ?x with _ => _ end] =>
             lazymatch x with
             | context [match _ with _ => _ end] => fail
             | _ => destruct x eqn:?
             end
         end.

(** ** The pool *)

Lemma serve_pool env ep req w :
  in_use (snd (serve env ep req w)) = in_use w \/
  (in_use (snd (serve env ep req w)) = S (in_use w) /\
   (in_use w < connectionLimit)%nat).
Proof.
  destruct ep; open_endpoint; branch;
    rewrite ?try_catch_respond, ?respond_run; cbn [snd in_use set_world];
    try (left; reflexivity);
    right; (split; [reflexivity|]);
    match goal with H : (connectionLimit <=? in_use w)%nat = false |- _ =>
      apply Nat.leb_gt in H; exact H end.
Qed.

(** No request gives a connection back that an earlier request kept, no
    request takes more than one, and the number of connections checked
    out never passes [connectionLimit]. *)
Theorem pool_never_shrinks_nor_overflows env ep req w :
  (in_use w <= in_use (snd (serve env ep req w)) <= S (in_use w))%nat /\
  ((in_use w <= connectionLimit)%nat ->
   (in_use (snd (serve env ep req w)) <= connectionLimit)%nat).
Proof.
  destruct (serve_pool env ep req w) as [E|[E H]]; rewrite E; lia.
Qed.

(** With every connection checked out, each of the eight endpoints answers
    400 or 500 without reaching the store, and nothing but the response
    changes. *)
Theorem exhausted_pool_refuses env ep req w :
  (connectionLimit <= in_use w)%nat ->
  exists r,
    serve env ep req w = (Ok r, set_world (db w) (in_use w) [EvResponse r] w) /\
    (status r = 400 \/ status r = 500).
Proof.
  intros H. apply Nat.leb_le in H.
  destruct ep; open_endpoint; rewrite H; branch;
    rewrite respond_run; eexists; (split; [reflexivity|]); cbn [status]; auto.
Qed.

Lemma exhausted_pool_refuses_witness :
  exists r,
    serve no_faults GetCustomers (mk_req "" None None None)
          {| db := db_jane; in_use := 5; trace := [] |}
    = (Ok r, set_world db_jane 5 [EvResponse r]
                       {| db := db_jane; in_use := 5; trace := [] |}) /\
    (status r = 400 \/ status r = 500).
Proof.
  apply (exhausted_pool_refuses no_faults GetCustomers (mk_req "" None None None)
           {| db := db_jane; in_use := 5; trace := [] |}).
  vm_compute. lia.
Defined.

(** ** Status codes *)

(** Each endpoint answers, and only with a status of its own list: the
    reads with 200 or 500; create with 201, 400 or 500 (a duplicate code is
    a 500, never a conflict status); the other mutations with 200, 400, 404
    or 500. *)
Theorem status_is_listed env ep req w :
  exists r w', serve env ep req w = (Ok r, w') /\ In (status r) (statuses ep).
Proof.
  destruct ep; open_endpoint; branch;
    rewrite ?try_catch_respond, ?respond_run; do 2 eexists;
    (split; [reflexivity|]); cbn [status statuses In]; auto 6.
Qed.

(** ** GET /health *)

(** The health check answers [200 { status: 'ok', db: true }] exactly when
    a connection can be taken and the probe statement runs, and
    [500 { status: 'error', db: false }] otherwise -- without the error
    message the other endpoints put in their 500 bodies; it never changes
    the store. *)
Theorem health_reports_reachability env req w :
  exists w',
    get_health env req w
    = (Ok (if store_reachable env w
           then {| status := 200; json := JHealth "ok" true |}
           else {| status := 500; json := JHealth "error" false |}), w') /\
    db w' = db w.
Proof.
  unfold get_health. rewrite session_run, run_sql_select_one. cbn zeta.
  split_env env w; rewrite ?try_catch_respond, ?respond_run;
    eexists; split; reflexivity.
Qed.

(** ** The listings *)

(** A listing never changes the store, and when it is answered 200 its
    body is an array of exactly min(50, n) rows, n the number of rows of
    the table it reads (customer, orders, foods). *)
Theorem listing_is_bounded_and_read_only env l req w :
  exists r w',
    serve env (listing_endpoint l) req w = (Ok r, w') /\
    db w' = db w /\
    (status r = 200 ->
     exists rows,
       json r = JResult (ResultRows rows) /\
       length rows = Nat.min 50 (table_size l (db w))).
Proof.
  destruct l; cbn [listing_endpoint]; open_endpoint; branch;
    rewrite ?try_catch_respond, ?respond_run; do 2 eexists;
    (split; [reflexivity|]); (split; [reflexivity|]);
    cbn [status json]; intros H; try discriminate H;
    eexists; (split; [reflexivity|]); unfold limit50, table_size;
    rewrite length_take, ?length_map, ?length_map_to_list; reflexivity.
Qed.

(** The rows of a customer listing are stored customers, each under its
    own code and none twice; with at most 50 customers stored, every one
    of them is listed. *)
Theorem customer_listing_is_faithful env req w r w' rows :
  get_customers env req w = (Ok r, w') ->
  json r = JResult (ResultRows rows) ->
  NoDup rows /\
  (forall row, In row rows ->
     exists k c, row = RowCustomer k c /\ customer (db w) !! k = Some c) /\
  ((size (customer (db w)) <= 50)%nat ->
   forall k c, customer (db w) !! k = Some c -> In (RowCustomer k c) rows).
Proof.
  unfold get_customers. rewrite session_run, run_sql_customers. cbn zeta.
  branch; rewrite ?try_catch_respond, ?respond_run; intros E J;
    injection E as <- _; cbn [json] in J; try discriminate J.
  injection J as <-. unfold limit50.
  set (f := fun kc : string * Customer => RowCustomer kc.1 kc.2).
  assert (Hinj : Inj eq eq f).
  { intros [k1 c1] [k2 c2] H. unfold f in H. cbn in H. congruence. }
  split; [|split].
  - eapply sublist_NoDup; [|apply sublist_take].
    apply (NoDup_fmap_2 f), NoDup_map_to_list.
  - intros row H. apply list_elem_of_In in H.
    apply elem_of_take in H as [i [H _]]. apply list_elem_of_lookup_2 in H.
    apply (list_elem_of_fmap_1 f) in H as [[k c] [-> H]].
    exists k, c. split; [reflexivity|]. apply elem_of_map_to_list, H.
  - intros Hsz k c H. apply list_elem_of_In. rewrite take_ge.
    + apply (list_elem_of_fmap_2' f _ (k, c)); [|reflexivity].
      apply elem_of_map_to_list, H.
    + rewrite length_map, length_map_to_list. exact Hsz.
Qed.

Lemma customer_listing_is_faithful_witness :
  NoDup [RowCustomer "C1" {| row_name := Some "Jane Doe"; row_city := Some "New York" |}] /\
  (forall row,
     In row [RowCustomer "C1" {| row_name := Some "Jane Doe"; row_city := Some "New York" |}] ->
     exists k c, row = RowCustomer k c /\ customer (db (fresh db_jane)) !! k = Some c) /\
  ((size (customer (db (fresh db_jane))) <= 50)%nat ->
   forall k c, customer (db (fresh db_jane)) !! k = Some c ->
     In (RowCustomer k c)
        [RowCustomer "C1" {| row_name := Some "Jane Doe"; row_city := Some "New York" |}]).
Proof.
  apply (customer_listing_is_faithful no_faults (mk_req "" None None None) (fresh db_jane)
           {| status := 200;
              json := JResult (ResultRows
                [RowCustomer "C1" {| row_name := Some "Jane Doe"; row_city := Some "New York" |}]) |}
           (snd (get_customers no_faults (mk_req "" None None None) (fresh db_jane))));
    reflexivity.
Defined.

(** ** Create *)

Lemma set_customer_same d : set_customer (customer d) d = d.
Proof. destruct d. reflexivity. Qed.

Lemma set_customer_twice t1 t2 d :
  set_customer t2 (set_customer t1 d) = set_customer t2 d.
Proof. reflexivity. Qed.

Lemma customer_set_customer t d : customer (set_customer t d) = t.
Proof. reflexivity. Qed.

(** Create only ever adds: whatever the request and the environment, every
    stored customer is still stored, unchanged, afterwards -- a create
    under a stored code does not overwrite it. *)
Theorem create_never_overwrites env req w k r :
  customer (db w) !! k = Some r ->
  customer (db (snd (post_customers env req w))) !! k = Some r.
Proof.
  intros H. change (post_customers env req w) with (serve env PostCustomers req w).
  rewrite serve_store. destruct (statement_runs env PostCustomers req w); [|exact H].
  cbn [effect].
  destruct (customer (db w) !! payload_code (post_payload (body req))) eqn:L; [exact H|].
  rewrite lookup_set_customer_insert.
  destruct (decide (payload_code (post_payload (body req)) = k)) as [<-|_];
    [congruence | exact H].
Qed.

Lemma create_never_overwrites_witness :
  customer (db (snd (post_customers no_faults
                       (mk_req "" (Some "C1") (Some "mallory") (Some "nowhere"))
                       (fresh db_jane)))) !! "C1"
  = Some {| row_name := Some "Jane Doe"; row_city := Some "New York" |}.
Proof.
  apply (create_never_overwrites no_faults
           (mk_req "" (Some "C1") (Some "mallory") (Some "nowhere")) (fresh db_jane)).
  reflexivity.
Defined.


Lemma store_reachable_true env w :
  store_reachable env w = true ->
  connect_error env = None /\ query_error env = None /\
  (connectionLimit <=? in_use w)%nat = false.
Proof.
  unfold store_reachable.
  destruct (connect_error env); [discriminate|].
  destruct (query_error env); [discriminate|].
  intros H. apply Nat.ltb_lt in H. repeat split. apply pool_has_room, H.
Qed.

Lemma post_customers_created env req w :
  store_reachable env w = true ->
  validation_ok PostCustomers req = true ->
  customer (db w) !! trim (toString (cust_code (body req))) = None ->
  let p := post_payload (body req) in
  post_customers env req w =
  (Ok {| status := 201; json := JCreated "Customer created" p |},
   set_world
     (set_customer
        (<[trim (toString (cust_code (body req))) :=
             {| row_name := Some (payload_name p); row_city := payload_city p |}]>
           (customer (db w))) (db w))
     (in_use w)
     [EvAcquire;
      EvQuery "INSERT INTO customer (cust_code, cust_name, cust_city) VALUES (?, ?, ?)"
              [Some (payload_code p); Some (payload_name p); payload_city p];
      EvRelease;
      EvResponse {| status := 201; json := JCreated "Customer created" p |}] w).
Proof.
  intros Hr Hv Hfree. cbn zeta.
  destruct (store_reachable_true env w Hr) as [Hc [Hq Hp]].
  rewrite validation_ok_post in Hv. apply no_errors_nil in Hv.
  rewrite post_customers_run, Hv, Hc, Hp, Hq. cbn zeta.
  change (payload_code (post_payload (body req)))
    with (trim (toString (cust_code (body req)))).
  rewrite Hfree, respond_run, set_world_twice. reflexivity.
Qed.

(** Create, then delete of the code just created, puts the store back as
    it was: with the store reachable, a create that passes validation under
    a free code is answered 201, the delete that follows is answered 200,
    and the store ends equal to the one before the create. *)
Theorem create_then_delete_restores env req w :
  store_reachable env w = true ->
  validation_ok PostCustomers req = true ->
  customer (db w) !! trim (toString (cust_code (body req))) = None ->
  let created := post_customers env req w in
  let del := {| id := toString (cust_code (body req)); body := body req |} in
  let deleted := delete_customers env del (snd created) in
  status <$> (match fst created with Ok r => Some r | Throw _ => None end) = Some 201 /\
  status <$> (match fst deleted with Ok r => Some r | Throw _ => None end) = Some 200 /\
  db (snd deleted) = db w.
Proof.
  intros Hr Hv Hfree. cbn zeta.
  rewrite (post_customers_created env req w Hr Hv Hfree). cbn zeta. cbn [fst snd].
  destruct (store_reachable_true env w Hr) as [Hc [Hq Hp]].
  rewrite validation_ok_post in Hv. apply no_errors_nil in Hv.
  assert (Hcode : id_errors (toString (cust_code (body req))) = []).
  { unfold post_errors, required_errors in Hv. unfold id_errors.
    destruct (trim (toString (cust_code (body req)))); [discriminate Hv | reflexivity]. }
  rewrite delete_customers_run. cbn [id]. rewrite Hcode, Hc, Hq.
  cbn [in_use set_world db]. rewrite Hp. cbn zeta.
  rewrite lookup_set_customer_insert.
  destruct (decide (trim (toString (cust_code (body req))) =
                    trim (toString (cust_code (body req))))); [|congruence].
  rewrite respond_run. cbn [fst snd db set_world status fmap option_fmap option_map].
  split; [reflexivity|]. split; [reflexivity|].
  rewrite customer_set_customer, set_customer_twice.
  rewrite delete_insert_id by exact Hfree. apply set_customer_same.
Qed.

Lemma create_then_delete_restores_witness :
  let req := mk_req "" (Some " C7 ") (Some "ann lee") None in
  let created := post_customers no_faults req (fresh db_jane) in
  let del := {| id := " C7 "; body := body req |} in
  let deleted := delete_customers no_faults del (snd created) in
  status <$> (match fst created with Ok r => Some r | Throw _ => None end) = Some 201 /\
  status <$> (match fst deleted with Ok r => Some r | Throw _ => None end) = Some 200 /\
  db (snd deleted) = db (fresh db_jane).
Proof.
  apply (create_then_delete_restores no_faults
           (mk_req "" (Some " C7 ") (Some "ann lee") None) (fresh db_jane));
    reflexivity.
Defined.




(** ** Repeating and combining mutations *)

Lemma patched_row_twice b r : patched_row b (patched_row b r) = patched_row b r.
Proof.
  unfold patched_row. cbn [row_name row_city].
  destruct (cust_name b), (cust_city b); reflexivity.
Qed.

Lemma insert_set_customer_twice k v1 v2 t d :
  set_customer (<[k := v2]> (customer (set_customer (<[k := v1]> t) d)))
               (set_customer (<[k := v1]> t) d)
  = set_customer (<[k := v2]> t) d.
Proof.
  rewrite customer_set_customer, set_customer_twice, insert_insert_eq. reflexivity.
Qed.

Lemma effect_twice ep req d : effect ep req (effect ep req d) = effect ep req d.
Proof.
  destruct ep; cbn [effect]; try reflexivity.
  - destruct (customer d !! payload_code (post_payload (body req))) eqn:L;
      [rewrite L; reflexivity|].
    rewrite lookup_set_customer_insert.
    destruct (decide (payload_code (post_payload (body req)) =
                      payload_code (post_payload (body req)))); [reflexivity | congruence].
  - destruct (customer d !! trim (id req)) eqn:L; [|rewrite L; reflexivity].
    rewrite lookup_set_customer_insert.
    destruct (decide (trim (id req) = trim (id req))); [|congruence].
    rewrite insert_set_customer_twice, patched_row_twice. reflexivity.
  - destruct (customer d !! trim (id req)) eqn:L; [|rewrite L; reflexivity].
    rewrite lookup_set_customer_insert.
    destruct (decide (trim (id req) = trim (id req))); [|congruence].
    rewrite insert_set_customer_twice. reflexivity.
  - destruct (customer d !! trim (id req)) eqn:L; [|rewrite L; reflexivity].
    rewrite customer_set_customer, lookup_delete_eq. reflexivity.
Qed.

(** A world with no fewer connections checked out is no more reachable. *)
Lemma store_reachable_mono env w w' :
  (in_use w <= in_use w')%nat ->
  store_reachable env w' = true -> store_reachable env w = true.
Proof.
  unfold store_reachable.
  destruct (connect_error env); [auto|]. destruct (query_error env); [auto|].
  intros H H'. apply Nat.ltb_lt in H'. apply Nat.ltb_lt. lia.
Qed.

Lemma serve_in_use_le env ep req w :
  (in_use w <= in_use (snd (serve env ep req w)))%nat.
Proof. destruct (serve_pool env ep req w) as [E|[E _]]; rewrite E; lia. Qed.

(** Sending the same request twice leaves the store as sending it once
    does, on every endpoint and in every environment: a repeated create
    does not overwrite, a repeated update writes the same values, a
    repeated delete finds nothing left to delete. *)
Theorem repeated_request_same_store env ep req w :
  db (snd (serve env ep req (snd (serve env ep req w)))) =
  db (snd (serve env ep req w)).
Proof.
  rewrite (serve_store env ep req (snd (serve env ep req w))).
  destruct (statement_runs env ep req (snd (serve env ep req w))) eqn:R2;
    [|reflexivity].
  rewrite serve_store.
  destruct (statement_runs env ep req w) eqn:R1; [apply effect_twice|].
  exfalso. unfold statement_runs in *.
  apply andb_true_iff in R2 as [V R2]. rewrite V in R1. cbn [andb] in R1.
  rewrite (store_reachable_mono env w _ (serve_in_use_le env ep req w) R2) in R1.
  discriminate R1.
Qed.

(** A run whose statement is not refused by the environment gives its
    connection back, on every endpoint but create (whose INSERT can still
    fail on a stored code). *)
Lemma serve_releases env ep req w :
  query_error env = None ->
  ep <> PostCustomers ->
  in_use (snd (serve env ep req w)) = in_use w.
Proof.
  intros Hq Hep. destruct ep; try congruence; open_endpoint; rewrite Hq; branch;
    rewrite ?try_catch_respond, ?respond_run; reflexivity.
Qed.

Lemma statement_runs_after env ep req req' w :
  ep <> PostCustomers ->
  validation_ok ep req' = validation_ok ep req ->
  statement_runs env ep req' (snd (serve env ep req w)) = statement_runs env ep req w.
Proof.
  intros Hep Hv. unfold statement_runs. rewrite Hv.
  destruct (validation_ok ep req); [|reflexivity]. cbn [andb].
  destruct (store_reachable env w) eqn:R.
  - unfold store_reachable in *.
    destruct (connect_error env); [discriminate R|].
    destruct (query_error env) eqn:Hq; [discriminate R|].
    rewrite (serve_releases env ep req w Hq Hep). exact R.
  - destruct (store_reachable env (snd (serve env ep req w))) eqn:R'; [|reflexivity].
    rewrite (store_reachable_mono env w _ (serve_in_use_le env ep req w) R') in R.
    discriminate R.
Qed.

(** Partial updates add up: a PATCH of [cust_name] followed by a PATCH of
    [cust_city] on the same id leaves the store as one PATCH of both fields
    does, in every environment. *)
Theorem patch_name_then_city_is_patch_both env i code n c w :
  let name_only := {| id := i; body := mk_body code (Some n) None |} in
  let city_only := {| id := i; body := mk_body code None (Some c) |} in
  let both := {| id := i; body := mk_body code (Some n) (Some c) |} in
  db (snd (patch_customers env city_only (snd (patch_customers env name_only w)))) =
  db (snd (patch_customers env both w)).
Proof.
  cbn zeta.
  change (patch_customers env) with (serve env PatchCustomers).
  set (rn := {| id := i; body := mk_body code (Some n) None |}).
  set (rc := {| id := i; body := mk_body code None (Some c) |}).
  set (rb := {| id := i; body := mk_body code (Some n) (Some c) |}).
  assert (Vc : validation_ok PatchCustomers rc = validation_ok PatchCustomers rn).
  { cbn [validation_ok]. rewrite !accepted_partial_update_iff. reflexivity. }
  assert (Vb : validation_ok PatchCustomers rb = validation_ok PatchCustomers rn).
  { cbn [validation_ok]. rewrite !accepted_partial_update_iff. reflexivity. }
  rewrite (serve_store env PatchCustomers rc).
  rewrite (statement_runs_after env PatchCustomers rn rc w) by (congruence || exact Vc).
  rewrite !serve_store.
  assert (Rb : statement_runs env PatchCustomers rb w = statement_runs env PatchCustomers rn w).
  { unfold statement_runs. rewrite Vb. reflexivity. }
  rewrite Rb. destruct (statement_runs env PatchCustomers rn w); [|reflexivity].
  cbn [effect id body rn rc rb].
  destruct (customer (db w) !! trim i) eqn:L; [|rewrite L; reflexivity].
  rewrite lookup_set_customer_insert.
  destruct (decide (trim i = trim i)); [|congruence].
  rewrite insert_set_customer_twice. reflexivity.
Qed.

(** With a non-blank name and a non-blank city in the body, PATCH and PUT
    do the same to the store and answer with the same status, in every
    environment: the two routes differ only on omitted and blank fields. *)
Theorem patch_of_both_fields_is_put env req w n c :
  cust_name (body req) = Some n -> trim n <> "" ->
  cust_city (body req) = Some c -> trim c <> "" ->
  db (snd (patch_customers env req w)) = db (snd (put_customers env req w)) /\
  in_use (snd (patch_customers env req w)) = in_use (snd (put_customers env req w)) /\
  exists r1 r2,
    fst (patch_customers env req w) = Ok r1 /\
    fst (put_customers env req w) = Ok r2 /\
    status r1 = status r2.
Proof.
  intros Hn Hnb Hc Hcb.
  rewrite patch_customers_run, put_customers_run.
  assert (N : name_errors (cust_name (body req)) = []).
  { unfold name_errors. rewrite Hn. cbn [toString].
    destruct (trim n); [congruence | reflexivity]. }
  assert (C : normalised_or_null trim (cust_city (body req)) = Some (titleCase c)).
  { rewrite Hc. unfold normalised_or_null. rewrite titleCase_trim.
    destruct (trim c); [congruence | reflexivity]. }
  rewrite N, app_nil_r, C. unfold patched_row. rewrite Hn, Hc.
  cbn [supplied orb negb toString]. cbn zeta.
  branch; rewrite ?respond_run; cbn [fst snd db in_use set_world];
    (split; [reflexivity|]); (split; [reflexivity|]);
    do 2 eexists; repeat split.
Qed.

Lemma patch_of_both_fields_is_put_witness :
  let req := mk_req "C1" None (Some "john roe") (Some "paris") in
  db (snd (patch_customers no_faults req (fresh db_jane)))
  = db (snd (put_customers no_faults req (fresh db_jane))) /\
  in_use (snd (patch_customers no_faults req (fresh db_jane)))
  = in_use (snd (put_customers no_faults req (fresh db_jane))) /\
  exists r1 r2,
    fst (patch_customers no_faults req (fresh db_jane)) = Ok r1 /\
    fst (put_customers no_faults req (fresh db_jane)) = Ok r2 /\
    status r1 = status r2.
Proof.
  apply (patch_of_both_fields_is_put no_faults
           (mk_req "C1" None (Some "john roe") (Some "paris")) (fresh db_jane)
           "john roe" "paris");
    first [reflexivity | vm_compute; discriminate].
Defined.

(** ** Delete *)

(** A delete is answered 200 exactly on a stored code, and then that row is
    gone; it is answered 404 only on a code with no row, leaving the store
    as it was; customers under other codes are never touched. *)
Theorem delete_removes_exactly_the_addressed_row env req w :
  exists r w',
    delete_customers env req w = (Ok r, w') /\
    (forall k, k <> trim (id req) -> customer (db w') !! k = customer (db w) !! k) /\
    (status r = 200 ->
     is_Some (customer (db w) !! trim (id req)) /\
     customer (db w') !! trim (id req) = None) /\
    (status r = 404 ->
     customer (db w) !! trim (id req) = None /\ db w' = db w).
Proof.
  rewrite delete_customers_run. cbn zeta.
  branch; rewrite respond_run; do 2 eexists; (split; [reflexivity|]);
    cbn [status db set_world];
    (split; [|split; intros S; try discriminate S]);
    try (intros k Hk; reflexivity);
    try (split; [assumption || eauto | reflexivity]).
  - intros k Hk. rewrite customer_set_customer, lookup_delete_ne by congruence.
    reflexivity.
  - split; [eauto|]. rewrite customer_set_customer. apply lookup_delete_eq.
Qed.

(** A second delete of the same id, after one that was answered 200, is
    answered 404. *)
Theorem delete_again_is_404 env req w r1 :
  fst (delete_customers env req w) = Ok r1 ->
  status r1 = 200 ->
  exists r2,
    fst (delete_customers env req (snd (delete_customers env req w))) = Ok r2 /\
    status r2 = 404.
Proof.
  rewrite (delete_customers_run env req w). cbn zeta.
  destruct (id_errors (id req)) eqn:Hid.
  2: { rewrite respond_run. intros E S. injection E as <-. discriminate S. }
  destruct (connect_error env) eqn:Hc.
  { rewrite respond_run. intros E S. injection E as <-. discriminate S. }
  destruct (connectionLimit <=? in_use w)%nat eqn:Hp.
  { rewrite respond_run. intros E S. injection E as <-. discriminate S. }
  destruct (query_error env) eqn:Hq.
  { rewrite respond_run. intros E S. injection E as <-. discriminate S. }
  destruct (customer (db w) !! trim (id req)) eqn:L.
  2: { rewrite respond_run. intros E S. injection E as <-. discriminate S. }
  rewrite respond_run. intros _ _. cbn [snd].
  rewrite delete_customers_run, Hid, Hc, Hq. cbn [in_use set_world db].
  rewrite Hp. cbn zeta. rewrite customer_set_customer, lookup_delete_eq, respond_run.
  eexists. split; reflexivity.
Qed.

Lemma delete_again_is_404_witness :
  exists r2,
    fst (delete_customers no_faults (mk_req "C1" None None None)
           (snd (delete_customers no_faults (mk_req "C1" None None None) (fresh db_jane))))
    = Ok r2 /\
    status r2 = 404.
Proof.
  apply (delete_again_is_404 no_faults (mk_req "C1" None None None) (fresh db_jane)
           {| status := 200; json := JMessage "Customer deleted" |});
    reflexivity.
Defined.

(** ** Updates and the set of codes *)

(** Neither PATCH nor PUT ever adds or removes a customer: the set of
    stored codes is the same before and after, whatever the request and
    the environment. *)
Theorem updates_keep_the_codes env req w :
  dom (customer (db (snd (patch_customers env req w)))) = dom (customer (db w)) /\
  dom (customer (db (snd (put_customers env req w)))) = dom (customer (db w)).
Proof.
  change (patch_customers env) with (serve env PatchCustomers).
  change (put_customers env) with (serve env PutCustomers).
  rewrite !serve_store.
  split.
  - destruct (statement_runs env PatchCustomers req w); [|reflexivity].
    cbn [effect]. destruct (customer (db w) !! trim (id req)) eqn:L; [|reflexivity].
    rewrite customer_set_customer. apply dom_insert_lookup_L. eauto.
  - destruct (statement_runs env PutCustomers req w); [|reflexivity].
    cbn [effect]. destruct (customer (db w) !! trim (id req)) eqn:L; [|reflexivity].
    rewrite customer_set_customer. apply dom_insert_lookup_L. eauto.
Qed.

(** ** The path id *)

(** The three mutations read the path id only after trimming it: two
    requests whose ids trim to the same string and whose bodies are equal
    get the same answer and have the same effects. *)
Theorem id_is_read_trimmed env m i1 i2 b w :
  trim i1 = trim i2 ->
  mutation_route env m {| id := i1; body := b |} w =
  mutation_route env m {| id := i2; body := b |} w.
Proof.
  intros H. destruct m; cbn [mutation_route].
  - rewrite !patch_customers_run. unfold id_errors. cbn [id body]. rewrite H. reflexivity.
  - rewrite !put_customers_run. unfold id_errors. cbn [id body]. rewrite H. reflexivity.
  - rewrite !delete_customers_run. unfold id_errors. cbn [id body]. rewrite H. reflexivity.
Qed.

Lemma id_is_read_trimmed_witness :
  mutation_route no_faults Delete {| id := "  C1 "; body := mk_body None None None |}
                 (fresh db_jane) =
  mutation_route no_faults Delete {| id := "C1"; body := mk_body None None None |}
                 (fresh db_jane).
Proof.
  apply (id_is_read_trimmed no_faults Delete "  C1 " "C1" (mk_body None None None)
           (fresh db_jane)).
  reflexivity.
Defined.

(** A blank id is refused by every mutation: the answer is 400 and the
    store is not reached. *)
Theorem blank_id_is_400 env m req w :
  trim (id req) = "" ->
  exists r,
    mutation_route env m req w = (Ok r, set_world (db w) (in_use w) [EvResponse r] w) /\
    status r = 400.
Proof.
  intros H. destruct m; cbn [mutation_route].
  - rewrite patch_customers_run. unfold id_errors. rewrite H. cbn [String.length Nat.eqb].
    rewrite respond_run. eexists. split; reflexivity.
  - rewrite put_customers_run. unfold id_errors. rewrite H. cbn [String.length Nat.eqb app].
    rewrite respond_run. eexists. split; reflexivity.
  - rewrite delete_customers_run. unfold id_errors. rewrite H. cbn [String.length Nat.eqb].
    rewrite respond_run. eexists. split; reflexivity.
Qed.

Lemma blank_id_is_400_witness :
  exists r,
    mutation_route no_faults Replace (mk_req "   " None (Some "jane") None) (fresh db_jane)
    = (Ok r, set_world db_jane 0 [EvResponse r] (fresh db_jane)) /\
    status r = 400.
Proof.
  apply (blank_id_is_400 no_faults Replace (mk_req "   " None (Some "jane") None)
           (fresh db_jane)).
  reflexivity.
Defined.

(** ** More on the normalisation helper *)

Lemma trimStart_toLowerCase s : trimStart (toLowerCase s) = toLowerCase (trimStart s).
Proof.
  induction s as [|c r IH]; [reflexivity|].
  unfold toLowerCase in *. cbn [string_map trimStart].
  rewrite isWhiteSpace_toLowerCase. destruct (isWhiteSpace c); [exact IH | reflexivity].
Qed.

Lemma trimEnd_toLowerCase s : trimEnd (toLowerCase s) = toLowerCase (trimEnd s).
Proof.
  induction s as [|c r IH]; [reflexivity|].
  unfold toLowerCase in *. cbn [string_map trimEnd]. rewrite IH.
  destruct (trimEnd r) as [|d r']; cbn [string_map]; [|reflexivity].
  rewrite isWhiteSpace_toLowerCase. destruct (isWhiteSpace c); reflexivity.
Qed.

Lemma toLowerCase_trim s : toLowerCase (trim s) = trim (toLowerCase s).
Proof. unfold trim. rewrite trimStart_toLowerCase, trimEnd_toLowerCase. reflexivity. Qed.

(** The capitalisation of the input does not matter: two strings that
    lower-case to the same string are normalised to the same value. *)
Theorem titleCase_ignores_input_case (s1 s2 : string) :
  toLowerCase s1 = toLowerCase s2 -> titleCase s1 = titleCase s2.
Proof.
  intros H. unfold titleCase. rewrite !toLowerCase_trim, H. reflexivity.
Qed.

Lemma titleCase_ignores_input_case_witness :
  titleCase " jAnE mcDOE " = titleCase " JANE MCdoe ".
Proof.
  apply (titleCase_ignores_input_case " jAnE mcDOE " " JANE MCdoe "). reflexivity.
Defined.

Lemma is_letter_toLowerCase c : is_letter (toLowerCase_char c) = is_letter c.
Proof. all_chars c; reflexivity. Qed.

Lemma is_a_z_upper_lower c :
  is_letter c = true -> is_a_z (toUpperCase_char (toLowerCase_char c)) = false.
Proof. all_chars c; intros H; try reflexivity; discriminate H. Qed.

Lemma is_word_char_upper_lower c :
  is_word_char (toUpperCase_char (toLowerCase_char c)) = is_word_char c.
Proof. all_chars c; reflexivity. Qed.

Lemma is_letter_upper_lower c :
  is_letter (toUpperCase_char (toLowerCase_char c)) = is_letter c.
Proof. all_chars c; reflexivity. Qed.

(** The result is capitalised canonically: an ASCII letter of the result is
    lower-case exactly when the character before it is a word character,
    and upper-case exactly when it opens the string or follows a non-word
    character. *)
Theorem titleCase_letter_case (s : string) (i : nat) (c : ascii) :
  String.get i (titleCase s) = Some c ->
  is_letter c = true ->
  is_a_z c =
  is_word (match i with O => None | S j => String.get j (titleCase s) end).
Proof.
  unfold titleCase. rewrite get_replace_toLowerCase.
  destruct (String.get i (trim s)) as [c0|] eqn:E; [|discriminate].
  assert (P : is_word (match i with O => None | S j =>
                 String.get j (replace_b_a_z None (toLowerCase (trim s))) end)
              = is_word (match i with O => None | S j => String.get j (trim s) end)).
  { destruct i as [|j]; [reflexivity|]. rewrite get_replace_toLowerCase.
    destruct (String.get j (trim s)) as [d|]; [|reflexivity]. cbn [is_word].
    destruct (is_letter d && _);
      [apply is_word_char_upper_lower | apply is_word_char_toLowerCase]. }
  rewrite P. clear P.
  intros H L. injection H as <-.
  destruct (is_letter c0) eqn:L0.
  - cbn [andb] in *.
    destruct (is_word match i with 0 => None | S j => String.get j (trim s) end);
      cbn [negb] in *.
    + rewrite is_a_z_toLowerCase. exact L0.
    + apply is_a_z_upper_lower, L0.
  - cbn [andb] in L. rewrite is_letter_toLowerCase, L0 in L. discriminate L.
Qed.

Lemma titleCase_letter_case_witness :
  is_a_z "L" = is_word (String.get 4 (titleCase "jean-luc")).
Proof.
  apply (titleCase_letter_case "jean-luc" 5 "L"); reflexivity.
Defined.

(** ** GET /say and the echo function *)

Lemma uri_safe_app a b : uri_safe (a +:+ b) = uri_safe a && uri_safe b.
Proof.
  induction a as [|x a IH]; [reflexivity|].
  rewrite append_cons. cbn [uri_safe]. rewrite IH, andb_assoc. reflexivity.
Qed.

Lemma uri_safe_encode_unit c : uri_safe (encode_unit c) = true.
Proof. all_chars c; reflexivity. Qed.

Lemma uri_safe_encodeURIComponent s : uri_safe (encodeURIComponent s) = true.
Proof.
  induction s as [|c r IH]; [reflexivity|].
  cbn [encodeURIComponent]. rewrite uri_safe_app, uri_safe_encode_unit, IH. reflexivity.
Qed.

Lemma uri_safe_excludes c s :
  uri_safe s = true ->
  uri_unreserved c = false -> Ascii.eqb c "%" = false ->
  includes (String c "") s = false.
Proof.
  intros H U P. induction s as [|x r IH]; [reflexivity|].
  cbn [uri_safe] in H. apply andb_true_iff in H as [Hx Hr].
  cbn [includes String.prefix]. rewrite (IH Hr), orb_false_r.
  destruct (ascii_dec c x) as [<-|N]; [|reflexivity].
  rewrite U, P in Hx. discriminate Hx.
Qed.

(** Whatever the keyword, what the handler appends to the URL holds only
    unreserved characters and percent signs: no ampersand, equals sign,
    hash, question mark, slash, plus or space, so the request carries one
    query parameter and the keyword cannot add another or cut the URL
    short. *)
Theorem say_url_keeps_one_parameter (kw : string) :
  exists q,
    say_url kw = "https://YOUR_FUNCTION_URL?keyword=" +:+ q /\
    uri_safe q = true /\
    includes "&" q = false /\ includes "=" q = false /\ includes "#" q = false /\
    includes "?" q = false /\ includes "/" q = false /\ includes "+" q = false /\
    includes " " q = false.
Proof.
  exists (encodeURIComponent kw). split; [reflexivity|].
  pose proof (uri_safe_encodeURIComponent kw) as H. split; [exact H|].
  repeat split; apply uri_safe_excludes; first [exact H | reflexivity].
Qed.

Lemma decode_encode_unit c r :
  decode_units (encode_unit c +:+ r) = String c (decode_units r).
Proof. all_chars c; reflexivity. Qed.

Lemma decode_encodeURIComponent s : decode_units (encodeURIComponent s) = s.
Proof.
  induction s as [|c r IH]; [reflexivity|].
  cbn [encodeURIComponent]. rewrite decode_encode_unit, IH. reflexivity.
Qed.

Lemma append_inj_l (p a b : string) : p +:+ a = p +:+ b -> a = b.
Proof.
  induction p as [|x p IH]; [auto|].
  rewrite !append_cons. intros H. injection H as H. auto.
Qed.

(** Different keywords are never sent as the same URL: the keyword can be
    read back from the request. *)
Theorem say_url_injective (k1 k2 : string) :
  say_url k1 = say_url k2 -> k1 = k2.
Proof.
  unfold say_url. intros H. apply append_inj_l in H.
  rewrite <- (decode_encodeURIComponent k1), <- (decode_encodeURIComponent k2), H.
  reflexivity.
Qed.

Lemma say_url_injective_witness : "a&b" = "a&b".
Proof. apply (say_url_injective "a&b" "a&b"). reflexivity. Defined.


(** The echo function always replies 200, and its body is "Serina Oswalt
    says " followed by a non-empty word: the keyword when one is given,
    "nothing" when the parameters, the keyword or its text are missing. *)
Theorem handler_never_echoes_empty (event : Lambda.Event) :
  Lambda.statusCode (Lambda.handler event) = 200 /\
  exists k,
    Lambda.body (Lambda.handler event) = "Serina Oswalt says " +:+ k /\
    k <> "" /\
    (Lambda.optional_keyword event = Some k \/
     (k = "nothing" /\
      (Lambda.optional_keyword event = None \/ Lambda.optional_keyword event = Some ""))).
Proof.
  split; [reflexivity|]. unfold Lambda.handler, Lambda.or_else. cbn zeta.
  destruct (Lambda.optional_keyword event) as [k|] eqn:E.
  - destruct k as [|a k'].
    + exists "nothing". cbn. repeat split; [discriminate | auto].
    + exists (String a k'). cbn [String.length Nat.eqb Lambda.body].
      repeat split; [discriminate | auto].
  - exists "nothing". cbn. repeat split; [discriminate | auto].
Qed.

(** The two ends together: when the platform hands the echo function the
    keyword that /say encoded into the URL, a request with a non-empty
    keyword is answered 200 with the message "Serina Oswalt says " followed
    by that keyword, unchanged. *)
Theorem say_through_the_echo_function (gateway : string -> Lambda.Event) k w :
  k <> "" ->
  gateway (say_url k)
  = {| Lambda.queryStringParameters := Some {| Lambda.keyword := Some k |} |} ->
  get_say (fun url => Ok (Lambda.body (Lambda.handler (gateway url)))) (Some k) w
  = respond 200 (JMessage ("Serina Oswalt says " +:+ k)) w.
Proof.
  intros Hk G. unfold get_say, truthy.
  destruct k as [|a k']; [congruence|]. cbn [String.length Nat.eqb negb toString].
  unfold try_catch, bind, await. rewrite G. reflexivity.
Qed.

Lemma say_through_the_echo_function_witness :
  let gateway := fun url =>
    {| Lambda.queryStringParameters :=
         Some {| Lambda.keyword :=
                   Some (decode_units (substring 34 (String.length url - 34) url)) |} |} in
  get_say (fun url => Ok (Lambda.body (Lambda.handler (gateway url))))
          (Some "a&b = c/d?") (fresh empty_db)
  = respond 200 (JMessage ("Serina Oswalt says " +:+ "a&b = c/d?")) (fresh empty_db).
Proof.
  apply (say_through_the_echo_function
           (fun url =>
              {| Lambda.queryStringParameters :=
                   Some {| Lambda.keyword :=
                             Some (decode_units
                                     (substring 34 (String.length url - 34) url)) |} |})
           "a&b = c/d?" (fresh empty_db));
    [discriminate | reflexivity].
Defined.
